(** * FireSim topology passes: a shallow embedding of
    [deploy/runtools/firesim_topology_with_passes.py]

    The Python class [FireSimTopologyWithPasses] mutates a graph of node
    objects and a run farm of host objects, and drives Fabric dispatches.
    Here node attributes are maps indexed by object identity, host objects
    are records held in the lists the passes iterate over, Python exceptions
    are an error monad, and remote dispatches are events appended to a
    trace.  The names the module binds when it is loaded are modelled too:
    a method that evaluates a name imported for the type checker only
    raises [NameError] there, and the statements after such a place are
    given as definitions of their own. *)

From stdpp Require Import base functions list strings gmap sorting.

Open Scope string_scope.
Open Scope nat_scope.
Open Scope list_scope.

(** ** Exceptions and the error monad *)

(** [AssertionError msg]; a bare [assert cond] carries the empty message. *)
Inductive exn : Type :=
| AssertionError (msg : string)
| IndexError
| TypeError
| UnboundLocalError (var : string)
| NameError (name : string)
| SystemExit.

Inductive outcome (A : Type) : Type :=
| Ok (a : A)
| Raise (e : exn).
Arguments Ok {A} a.
Arguments Raise {A} e.

#[global] Instance outcome_ret : MRet outcome := fun _ a => Ok a.
#[global] Instance outcome_bind : MBind outcome := fun _ _ f m =>
  match m with
  | Ok a => f a
  | Raise e => Raise e
  end.

(** A Python [for x in l: body], where the body may raise. *)
Fixpoint for_each {S A : Type} (body : S → A → outcome S) (l : list A) (s : S)
  : outcome S :=
  match l with
  | [] => Ok s
  | x :: l' =>
      match body s x with
      | Ok s' => for_each body l' s'
      | Raise e => Raise e
      end
  end.

(** [l[i] = v] on a Python list: [IndexError] outside the list. *)
Definition list_setitem {A : Type} (l : list A) (i : nat) (v : A)
  : outcome (list A) :=
  if decide (i < length l) then Ok (<[i := v]> l) else Raise IndexError.

(** [l[i]] on a Python list. *)
Definition list_getitem {A : Type} (l : list A) (i : nat) : outcome A :=
  match l !! i with
  | Some x => Ok x
  | None => Raise IndexError
  end.

(** [reduce(lambda x, y: x + y, ls)] without an initial value: [TypeError]
    on the empty sequence. *)
Definition reduce_add {A : Type} (ls : list (list A)) : outcome (list A) :=
  match ls with
  | [] => Raise TypeError
  | l :: ls' => Ok (foldl app l ls')
  end.

(** ** Module globals *)

(** [typing.TYPE_CHECKING] is [False] when the module runs. *)
Definition TYPE_CHECKING : bool := false.

(** The names bound by the import statements of lines 3-19. *)
Definition imported_names : list string :=
  ["annotations"; "time"; "os"; "pprint"; "logging"; "datetime";
   "env"; "parallel"; "execute"; "run"; "local"; "warn_only";
   "Fore"; "Style"; "reduce";
   "FireSimServerNode"; "FireSimDummyServerNode"; "FireSimSwitchNode";
   "FireSimTopology"; "MacAddress"; "StreamLogger";
   "Dict"; "Any"; "cast"; "List"; "TYPE_CHECKING"; "Callable"].

(** The names imported under [if TYPE_CHECKING:] (lines 20-24). *)
Definition type_checking_names : list string :=
  ["RunFarm"; "AWSEC2F1"; "RuntimeHWDB"; "WorkloadConfig"; "FPGAInst"].

(** The module's global names once it is loaded: the imports, then the
    definitions of the module itself. *)
Definition module_globals : list string :=
  imported_names
  ++ (if TYPE_CHECKING then type_checking_names else [])
  ++ ["rootLogger"; "instance_liveness"; "FireSimTopologyWithPasses"].

(** Evaluating a global name in an expression: [NameError] when the module
    does not bind it.  ([from __future__ import annotations] defers the
    annotations only, not the arguments of [cast] and [isinstance].) *)
Definition global_name (name : string) : outcome unit :=
  if decide (name ∈ module_globals) then Ok () else Raise (NameError name).

(** ** Topology nodes *)

Abbreviation node_id := nat (only parsing).

(** Modelled from the spec: the node classes of
    [runtools.firesim_topology_elements] (Switch, Machine,
    GroupPlaceholder).  The placeholder is a stand-in for a machine, so it
    is a subclass of the server node: [isinstance(x, FireSimServerNode)]
    holds for it. *)
Inductive node_class : Type :=
| FireSimSwitchNode
| FireSimServerNode
| FireSimDummyServerNode.

#[global] Instance node_class_eq_dec : EqDecision node_class.
Proof. solve_decision. Defined.

Definition isinstance_switch (c : node_class) : bool :=
  match c with FireSimSwitchNode => true | _ => false end.

Definition isinstance_server (c : node_class) : bool :=
  match c with FireSimSwitchNode => false | _ => true end.

Definition isinstance_dummy (c : node_class) : bool :=
  match c with FireSimDummyServerNode => true | _ => false end.

(** Modelled from the spec: [runtools.firesim_topology_core.FireSimTopology],
    the graph built once from the topology description.  [downlinks n] lists
    [get_downlink_side()] of the links of [n] by port; [get_dfs_order] is
    the traversal the passes iterate over. *)
Record FireSimTopology : Type := {
  roots : list node_id;
  class_of : node_id → node_class;
  downlinks : node_id → list node_id;
  get_dfs_order : list node_id
}.

Definition get_dfs_order_switches (t : FireSimTopology) : list node_id :=
  filter (λ n, isinstance_switch (class_of t n) = true) (get_dfs_order t).

Definition get_dfs_order_servers (t : FireSimTopology) : list node_id :=
  filter (λ n, isinstance_server (class_of t n) = true) (get_dfs_order t).

(** ** The pass pipeline state

    [passes_used] is the attribute of the same name; [next_mac_alloc] is the
    class-level counter of [MacAddress]; the three maps are the node
    attributes the first two passes write. *)
Record pipeline : Type := {
  passes_used : list string;
  next_mac_alloc : nat;
  mac_address : node_id → option nat;
  downlinkmacs : node_id → list nat;
  switch_table : node_id → list nat
}.

Definition record_pass (name : string) (s : pipeline) : pipeline :=
  {| passes_used := passes_used s ++ [name];
     next_mac_alloc := next_mac_alloc s;
     mac_address := mac_address s;
     downlinkmacs := downlinkmacs s;
     switch_table := switch_table s |}.

(** Modelled from the spec: the address allocator [runtools.utils.MacAddress]
    issues sequential addresses, contiguous from zero after a reset, and
    exposes the next value it would issue without consuming it. *)
Definition reset_allocator (s : pipeline) : pipeline :=
  {| passes_used := passes_used s;
     next_mac_alloc := 0;
     mac_address := mac_address s;
     downlinkmacs := downlinkmacs s;
     switch_table := switch_table s |}.

Definition next_mac_to_allocate (s : pipeline) : nat := next_mac_alloc s.

(** [node.assign_mac_address(MacAddress())]: allocate, store, increment. *)
Definition assign_fresh_mac (s : pipeline) (n : node_id) : pipeline :=
  {| passes_used := passes_used s;
     next_mac_alloc := S (next_mac_alloc s);
     mac_address := <[n := Some (next_mac_alloc s)]> (mac_address s);
     downlinkmacs := downlinkmacs s;
     switch_table := switch_table s |}.

(** Modelled from the spec: [get_mac_address] of a machine; every machine
    has an address before a table pass runs, so a missing one is an
    assertion failure. *)
Definition get_mac_address (s : pipeline) (n : node_id) : outcome nat :=
  match mac_address s n with
  | Some m => Ok m
  | None => Raise (AssertionError "")
  end.

Definition set_downlinkmacs (s : pipeline) (n : node_id) (macs : list nat)
  : pipeline :=
  {| passes_used := passes_used s;
     next_mac_alloc := next_mac_alloc s;
     mac_address := mac_address s;
     downlinkmacs := <[n := macs]> (downlinkmacs s);
     switch_table := switch_table s |}.

Definition set_switch_table (s : pipeline) (n : node_id) (tab : list nat)
  : pipeline :=
  {| passes_used := passes_used s;
     next_mac_alloc := next_mac_alloc s;
     mac_address := mac_address s;
     downlinkmacs := downlinkmacs s;
     switch_table := <[n := tab]> (switch_table s) |}.

(** ** [pass_assign_mac_addresses] *)

Definition assign_mac_body (t : FireSimTopology) (s : pipeline) (node : node_id)
  : pipeline :=
  if isinstance_server (class_of t node) then assign_fresh_mac s node else s.

Definition pass_assign_mac_addresses (t : FireSimTopology) (s : pipeline)
  : pipeline :=
  let s := record_pass "pass_assign_mac_addresses" s in
  let nodes_dfs_order := get_dfs_order t in
  let s := reset_allocator s in
  foldl (assign_mac_body t) s nodes_dfs_order.

(** ** [pass_compute_switching_tables] *)

(** First loop body: the addresses reachable below [node]. *)
Definition downlinkmacs_body (t : FireSimTopology) (s : pipeline) (node : node_id)
  : outcome pipeline :=
  if isinstance_server (class_of t node) then
    m ← get_mac_address s node;
    Ok (set_downlinkmacs s node [m])
  else
    let childdownlinkmacs := map (λ x, downlinkmacs s x) (downlinks t node) in
    macs ← reduce_add childdownlinkmacs;
    Ok (set_downlinkmacs s node macs).

(** [for mac in portmacs: switchtab[mac.as_int_no_prefix()] = port_no] *)
Definition fill_port (port_no : nat) (switchtab : list nat) (portmacs : list nat)
  : outcome (list nat) :=
  for_each (λ tab mac, list_setitem tab mac port_no) portmacs switchtab.

(** The table of one switch, from the [downlinkmacs] of its downlinks. *)
Definition build_switch_table (t : FireSimTopology) (s : pipeline)
    (switch : node_id) : outcome (list nat) :=
  let uplinkportno := length (downlinks t switch) in
  let switchtab := replicate (next_mac_to_allocate s) uplinkportno in
  for_each
    (λ tab port_no,
       d ← list_getitem (downlinks t switch) port_no;
       fill_port port_no tab (downlinkmacs s d))
    (seq 0 (length (downlinks t switch))) switchtab.

Definition switch_table_body (t : FireSimTopology) (s : pipeline)
    (switch : node_id) : outcome pipeline :=
  tab ← build_switch_table t s switch;
  Ok (set_switch_table s switch tab).

Definition pass_compute_switching_tables (t : FireSimTopology) (s : pipeline)
  : outcome pipeline :=
  if decide ("pass_assign_mac_addresses" ∈ passes_used s) then
    let s := record_pass "pass_compute_switching_tables" s in
    s ← for_each (downlinkmacs_body t) (get_dfs_order t) s;
    for_each (switch_table_body t) (get_dfs_order_switches t) s
  else Raise (AssertionError "").

(** The traversal is bottom-up: every switch has a downlink, and the
    downlinks of a switch come before it in the traversal. *)
Fixpoint dfs_bottom_up (t : FireSimTopology) (seen order : list node_id) : bool :=
  match order with
  | [] => true
  | n :: rest =>
      (if isinstance_server (class_of t n) then true
       else negb (bool_decide (downlinks t n = []))
            && forallb (λ d, bool_decide (d ∈ seen)) (downlinks t n))
      && dfs_bottom_up t (n :: seen) rest
  end.

(** A fresh pipeline object, as [__init__] leaves it before
    [phase_one_passes]. *)
Definition fresh_pipeline : pipeline :=
  {| passes_used := [];
     next_mac_alloc := 0;
     mac_address := λ _, None;
     downlinkmacs := λ _, [];
     switch_table := λ _, [] |}.

(** A two-level example: machines 0 and 1 under switch 2, machine 3 under
    switch 4, root switch 5 over the switches 2 and 4. *)
Definition example_tree : FireSimTopology :=
  {| roots := [5];
     class_of := λ n, if decide (n ∈ [2; 4; 5]) then FireSimSwitchNode
                      else FireSimServerNode;
     downlinks := λ n, match n with
                       | 2 => [0; 1]
                       | 4 => [3]
                       | 5 => [2; 4]
                       | _ => []
                       end;
     get_dfs_order := [0; 1; 2; 3; 4; 5] |}.

(** ** The run farm *)

(** Modelled from the spec: the host objects of [runtools.run_farm]
    (HostSlot): a capacity ([0] slots on a switch-only host), the switches
    and the machines assigned so far, and the address it is reached at.
    [add_switch] and [add_simulation] append to the host's lists. *)
Record Inst : Type := {
  get_ip : string;
  is_fpga_node : bool;
  get_num_fpga_slots_max : nat;
  switch_slots : list node_id;
  fpga_slots : list node_id
}.

Definition add_switch (node : Inst) (switch : node_id) : Inst :=
  {| get_ip := get_ip node;
     is_fpga_node := is_fpga_node node;
     get_num_fpga_slots_max := get_num_fpga_slots_max node;
     switch_slots := switch_slots node ++ [switch];
     fpga_slots := fpga_slots node |}.

Definition add_simulation (node : Inst) (server : node_id) : Inst :=
  {| get_ip := get_ip node;
     is_fpga_node := is_fpga_node node;
     get_num_fpga_slots_max := get_num_fpga_slots_max node;
     switch_slots := switch_slots node;
     fpga_slots := fpga_slots node ++ [server] |}.

(** A host of the inventory before any mapping pass. *)
Definition new_host (ip : string) (fpga : bool) (slots : nat) : Inst :=
  {| get_ip := ip; is_fpga_node := fpga; get_num_fpga_slots_max := slots;
     switch_slots := []; fpga_slots := [] |}.

(** [list.sort] is stable; [before x y] says that [x] may stand in front of
    an element [y] that came after it in the input. *)
Fixpoint insert_sorted {A : Type} (before : A → A → bool) (x : A) (l : list A)
  : list A :=
  match l with
  | [] => [x]
  | y :: l' => if before x y then x :: l else y :: insert_sorted before x l'
  end.

Definition stable_sort {A : Type} (before : A → A → bool) (l : list A) : list A :=
  foldr (insert_sorted before) [] l.

(** [l.sort(key=key)] *)
Definition sort_by_key {A : Type} (key : A → nat) (l : list A) : list A :=
  stable_sort (λ x y, bool_decide (key x ≤ key y)) l.

(** [l.sort(reverse=True, key=key)] *)
Definition sort_by_key_reverse {A : Type} (key : A → nat) (l : list A) : list A :=
  stable_sort (λ x y, bool_decide (key y ≤ key x)) l.

(** ** [pass_no_net_host_mapping] *)

(** How a loop body ends: it falls through to the next iteration, or the
    function returns from inside the loop. *)
Inductive flow (S : Type) : Type :=
| Next (s : S)
| Return (s : S).
Arguments Next {S} s.
Arguments Return {S} s.

(** [for slot in range(n): ...] on one host, from server index [serverind]. *)
Fixpoint fill_slots (servers : list node_id) (nslots : nat) (node : Inst)
    (serverind : nat) : outcome (flow (Inst * nat)) :=
  match nslots with
  | 0 => Ok (Next (node, serverind))
  | S k =>
      server ← list_getitem servers serverind;
      let node := add_simulation node server in
      let serverind := serverind + 1 in
      if decide (length servers = serverind) then Ok (Return (node, serverind))
      else fill_slots servers k node serverind
  end.

(** [for node in fpga_nodes: ...] *)
Fixpoint fill_nodes (servers : list node_id) (fpga_nodes : list Inst)
    (serverind : nat) : outcome (flow (list Inst * nat)) :=
  match fpga_nodes with
  | [] => Ok (Next ([], serverind))
  | node :: rest =>
      r ← fill_slots servers (get_num_fpga_slots_max node) node serverind;
      match r with
      | Return (node', i) => Ok (Return (node' :: rest, i))
      | Next (node', i) =>
          r' ← fill_nodes servers rest i;
          match r' with
          | Return (rest', j) => Ok (Return (node' :: rest', j))
          | Next (rest', j) => Ok (Next (node' :: rest', j))
          end
      end
  end.

(** Line 196, [fpga_nodes.sort(reverse=True, key=...)]: the hosts in the
    order the loop visits them. *)
Definition largest_first (fpga_nodes : list Inst) : list Inst :=
  sort_by_key_reverse get_num_fpga_slots_max fpga_nodes.

(** The statements that follow the binding of [fpga_nodes] (lines 196-205,
    with [serverind = 0] of line 192), on the list of servers and the list
    bound to [fpga_nodes]; they return that list, in visiting order, as the
    loop leaves it. *)
Definition no_net_packing_loop (servers : list node_id)
    (fpga_nodes : list Inst) : outcome (list Inst) :=
  let serverind := 0 in
  let fpga_nodes := largest_first fpga_nodes in
  r ← fill_nodes servers fpga_nodes serverind;
  match r with
  | Return (fpga_nodes, _) => Ok fpga_nodes
  | Next (fpga_nodes, serverind) =>
      if decide (serverind = length servers) then Ok fpga_nodes
      else Raise (AssertionError "ERR: all servers were not assigned to a host.")
  end.

(** The pass.  Line 195 evaluates [List[FPGAInst]], the first argument of
    [cast], before the filter. *)
Definition pass_no_net_host_mapping (t : FireSimTopology)
    (run_farm_nodes : list Inst) : outcome (list Inst) :=
  let servers := get_dfs_order_servers t in
  global_name "FPGAInst";;
  let fpga_nodes := filter (λ x, is_fpga_node x = true) run_farm_nodes in
  no_net_packing_loop servers fpga_nodes.

(** What the packing amounts to: every host in turn takes as many of the
    remaining servers as it has slots. *)
Fixpoint pack (servers : list node_id) (fpga_nodes : list Inst) : list Inst :=
  match fpga_nodes with
  | [] => []
  | node :: rest =>
      foldl add_simulation node (take (get_num_fpga_slots_max node) servers)
      :: pack (drop (get_num_fpga_slots_max node) servers) rest
  end.

Definition total_slots (hosts : list Inst) : nat :=
  sum_list (map get_num_fpga_slots_max hosts).

(** ** [pass_simple_networked_host_node_mapping] *)

(** The downlink sides of a switch that are not placeholder nodes. *)
Definition alldownlinknodes (t : FireSimTopology) (switch : node_id)
  : list node_id :=
  filter (λ d, isinstance_dummy (class_of t d) = false) (downlinks t switch).

Definition all_switches (t : FireSimTopology) (l : list node_id) : bool :=
  forallb (λ x, isinstance_switch (class_of t x)) l.

Definition all_servers (t : FireSimTopology) (l : list node_id) : bool :=
  forallb (λ x, isinstance_server (class_of t x)) l.

(** The state of the pass: the switch-only hosts and the accelerator hosts. *)
Definition simple_switch_body (t : FireSimTopology)
    (st : list Inst * list Inst) (switch : node_id)
  : outcome (list Inst * list Inst) :=
  let '(switch_nodes, fpga_nodes) := st in
  let alldownlinknodes := alldownlinknodes t switch in
  if all_switches t alldownlinknodes then
    Ok (map (λ node,
               if decide (length (switch_slots node) = 0)
               then add_switch node switch else node) switch_nodes,
        fpga_nodes)
  else if all_servers t alldownlinknodes then
    let downlinknodes := alldownlinknodes in
    Ok (switch_nodes,
        map (λ node,
               if decide (length (fpga_slots node) = 0
                          ∧ length downlinknodes ≤ get_num_fpga_slots_max node)
               then foldl add_simulation (add_switch node switch) downlinknodes
               else node) fpga_nodes)
  else Raise (AssertionError "Mixed downlinks currently not supported.").

(** The statements that follow the binding of [fpga_nodes] (lines 214-236),
    on the lists bound to [switch_nodes] and [fpga_nodes]. *)
Definition simple_networked_loop (t : FireSimTopology)
    (switch_nodes fpga_nodes : list Inst) : outcome (list Inst * list Inst) :=
  let switches := get_dfs_order_switches t in
  let fpga_nodes := sort_by_key get_num_fpga_slots_max fpga_nodes in
  for_each (simple_switch_body t) switches (switch_nodes, fpga_nodes).

(** The pass.  Line 213 evaluates [List[FPGAInst]], the first argument of
    [cast], before the second filter. *)
Definition pass_simple_networked_host_node_mapping (t : FireSimTopology)
    (run_farm_nodes : list Inst) : outcome (list Inst * list Inst) :=
  let switch_nodes := filter (λ x, is_fpga_node x = false) run_farm_nodes in
  global_name "FPGAInst";;
  let fpga_nodes := filter (λ x, is_fpga_node x = true) run_farm_nodes in
  simple_networked_loop t switch_nodes fpga_nodes.

(** The number of hosts that hold [switch]. *)
Definition hosts_holding (switch : node_id) (hosts : list Inst) : nat :=
  length (filter (λ h, switch ∈ switch_slots h) hosts).

(** ** [mapping_use_one_fpga_node] *)

(** A Python iterator (here the result of [map(...)]): the items not yet
    consumed.  A list comprehension over it takes them all and leaves it
    exhausted. *)
Abbreviation iterator := list (only parsing).

Definition drain {A : Type} (it : iterator A) : list A * iterator A := (it, []).

(** The locals that live across iterations: the accelerator hosts and
    the variable [downlinknodes], unbound until the first assignment. *)
Definition one_fpga_body (t : FireSimTopology) (fpga_nodes_used : nat)
    (st : list Inst * option (iterator node_id)) (switch : node_id)
  : outcome (list Inst * option (iterator node_id)) :=
  let '(fpga_nodes, downlinknodes) := st in
  node ← list_getitem fpga_nodes fpga_nodes_used;
  let fpga_nodes := <[fpga_nodes_used := add_switch node switch]> fpga_nodes in
  let alldownlinknodes : iterator node_id := downlinks t switch in
  let '(items, alldownlinknodes) := drain alldownlinknodes in
  if all_servers t items then
    let downlinknodes := alldownlinknodes in
    let '(items, downlinknodes) := drain downlinknodes in
    fpga_nodes ←
      for_each
        (λ fpga_nodes server,
           if isinstance_server (class_of t server) then
             node ← list_getitem fpga_nodes fpga_nodes_used;
             Ok (<[fpga_nodes_used := add_simulation node server]> fpga_nodes)
           else Raise (AssertionError ""))
        items fpga_nodes;
    Ok (fpga_nodes, Some downlinknodes)
  else
    match downlinknodes with
    | None => Raise (UnboundLocalError "downlinknodes")
    | Some downlinknodes =>
        let '(items, downlinknodes) := drain downlinknodes in
        if existsb (λ x, isinstance_server (class_of t x)) items then
          Raise (AssertionError "MIXED DOWNLINKS NOT SUPPORTED.")
        else Ok (fpga_nodes, Some downlinknodes)
    end.

(** The loop over the switches (lines 246-255, with [fpga_nodes_used = 0]
    of line 242), on the list bound to [fpga_nodes]. *)
Definition one_fpga_loop (t : FireSimTopology) (fpga_nodes : list Inst)
  : outcome (list Inst) :=
  let switches := get_dfs_order_switches t in
  let fpga_nodes_used := 0 in
  st ← for_each (one_fpga_body t fpga_nodes_used) switches (fpga_nodes, None);
  Ok st.1.

(** The function.  Line 244 evaluates [List[FPGAInst]], the first argument
    of [cast], before the filter. *)
Definition mapping_use_one_fpga_node (t : FireSimTopology)
    (run_farm_nodes : list Inst) : outcome (list Inst) :=
  global_name "FPGAInst";;
  let fpga_nodes := filter (λ x, is_fpga_node x = true) run_farm_nodes in
  one_fpga_loop t fpga_nodes.

(** ** Fabric: dispatch to hosts and local commands *)

(** The [@parallel] tasks of the module and of its methods. *)
Inductive task : Type :=
| instance_liveness
| infrasetup_node_wrapper
| boot_switch_wrapper
| boot_simulation_wrapper
| kill_switch_wrapper
| kill_simulation_wrapper (disconnect_all_nbds : bool)
| screens
| monitor_jobs_wrapper (teardown : bool).

Inductive local_cmd : Type :=
| mkdir_job_results_dir
| run_post_run_hook (hook : string).

(** What the manager does to the outside world, in order. *)
Inductive event : Type :=
| PostLaunchBinding (use_mock : bool)
| BindInstances (use_mock : bool)
| BuildDriver (server : node_id)
| BuildSwitch (switch : node_id)
| Remote (tk : task) (host : string)
| Local (cmd : local_cmd)
| Sleep (seconds : nat)
| LogInfo (msg : string).

#[global] Instance task_eq_dec : EqDecision task.
Proof. solve_decision. Defined.
#[global] Instance local_cmd_eq_dec : EqDecision local_cmd.
Proof. solve_decision. Defined.
#[global] Instance event_eq_dec : EqDecision event.
Proof. solve_decision. Defined.

(** The environment of a run: which hosts a dispatch reaches, the exit
    status of the local commands, and Fabric's ambient [env.warn_only]
    (off unless the caller turns it on). *)
Record world : Type := {
  reachable : string → bool;
  local_status : local_cmd → nat;
  env_warn_only : bool
}.

(** Commands run against the trace of events so far and may raise. *)
Definition io (A : Type) : Type := list event → list event * outcome A.

#[global] Instance io_ret : MRet io := λ _ a tr, (tr, Ok a).
#[global] Instance io_bind : MBind io := λ _ _ f m tr,
  match m tr with
  | (tr', Ok a) => f a tr'
  | (tr', Raise e) => (tr', Raise e)
  end.

Definition emit (e : event) : io unit := λ tr, (tr ++ [e], Ok ()).

Definition lift {A : Type} (o : outcome A) : io A := λ tr, (tr, o).

(** [execute(task, hosts=hosts)] for a [@parallel] task: the task runs on
    every host that can be reached, and the batch aborts if one cannot. *)
Definition execute (w : world) (tk : task) (hosts : list string) : io unit :=
  λ tr,
    (tr ++ map (Remote tk) (filter (λ h, reachable w h = true) hosts),
     if forallb (reachable w) hosts then Ok () else Raise SystemExit).

(** [local(cmd, capture=True)]: Fabric aborts on a non-zero exit status
    unless [env.warn_only] is set; the status is the result otherwise. *)
Definition local (w : world) (cmd : local_cmd) : io nat :=
  λ tr,
    (tr ++ [Local cmd],
     if decide (local_status w cmd = 0) then Ok 0
     else if env_warn_only w then Ok (local_status w cmd)
     else Raise SystemExit).

(** ** The run farm and the workload, as the dispatch methods use them *)

Record RunFarm : Type := {
  is_AWSEC2F1 : bool;
  get_all_host_nodes : list Inst
}.

Record WorkloadConfig : Type := {
  job_results_dir : string;
  post_run_hook : option string
}.

Definition all_runfarm_ips (run_farm : RunFarm) : list string :=
  map get_ip (get_all_host_nodes run_farm).

(** [isinstance(self.run_farm, AWSEC2F1)]: the arguments are evaluated
    first, the class among them as a global name of the module. *)
Definition isinstance_AWSEC2F1 (run_farm : RunFarm) : outcome bool :=
  global_name "AWSEC2F1";;
  Ok (is_AWSEC2F1 run_farm).

Definition pass_build_required_drivers (t : FireSimTopology) : io unit :=
  λ tr, (tr ++ map BuildDriver (get_dfs_order_servers t), Ok ()).

Definition pass_build_required_switches (t : FireSimTopology) : io unit :=
  λ tr, (tr ++ map BuildSwitch (get_dfs_order_switches t), Ok ()).

(** ** [infrasetup_passes], [boot_simulation_passes], [kill_simulation_passes] *)

Definition infrasetup_passes (w : world) (t : FireSimTopology)
    (run_farm : RunFarm) (use_mock_instances_for_testing : bool) : io unit :=
  emit (PostLaunchBinding use_mock_instances_for_testing);;
  pass_build_required_drivers t;;
  pass_build_required_switches t;;
  let all_runfarm_ips := all_runfarm_ips run_farm in
  execute w instance_liveness all_runfarm_ips;;
  execute w infrasetup_node_wrapper all_runfarm_ips.

Definition boot_simulation_passes (w : world) (run_farm : RunFarm)
    (use_mock_instances_for_testing skip_instance_binding : bool) : io unit :=
  (if skip_instance_binding then mret ()
   else emit (PostLaunchBinding use_mock_instances_for_testing));;
  let all_runfarm_ips := all_runfarm_ips run_farm in
  execute w instance_liveness all_runfarm_ips;;
  execute w boot_switch_wrapper all_runfarm_ips;;
  execute w boot_simulation_wrapper all_runfarm_ips.

Definition kill_simulation_passes (w : world) (run_farm : RunFarm)
    (use_mock_instances_for_testing disconnect_all_nbds : bool) : io unit :=
  emit (PostLaunchBinding use_mock_instances_for_testing);;
  let all_runfarm_ips := all_runfarm_ips run_farm in
  execute w kill_switch_wrapper all_runfarm_ips;;
  execute w (kill_simulation_wrapper disconnect_all_nbds) all_runfarm_ips;;
  execute w screens all_runfarm_ips.

(** ** [run_workload_passes] *)

(** What [monitor_jobs_instance] returns for one host. *)
Record instdata : Type := {
  switches : gmap string bool;
  sims : gmap string bool
}.

(** The result of one [execute(monitor_jobs_wrapper, ...)]: host to state,
    in the order of the hosts. *)
Abbreviation instancestates := (list (string * instdata)) (only parsing).

(** [d.update(x)]: the entries of [x] replace those of [d]. *)
Definition dict_update (d x : gmap string bool) : gmap string bool := x ∪ d.

Definition dict_values (d : gmap string bool) : list bool := (map_to_list d).*2.

(** [any(l)] and [all(l)] on booleans. *)
Definition any (l : list bool) : bool := existsb id l.
Definition all (l : list bool) : bool := forallb id l.

Definition jobs_complete_dict (states : instancestates) : gmap string bool :=
  let simstates := map (λ x, sims x.2) states in
  foldl dict_update ∅ simstates.

Definition global_status (states : instancestates) : list bool :=
  dict_values (jobs_complete_dict states).

(** The polling loop either left through one of its [break]s or is still
    polling when the observed status replies end. *)
Inductive loop_status : Type := Exited | Polling.

#[global] Instance loop_status_eq_dec : EqDecision loop_status.
Proof. solve_decision. Defined.

Definition teardown_msg : string := "Teardown required, manually tearing down...".
Definition success_msg : string := "FireSim Simulation Exited Successfully. See results in:".

(** [while True: ...]; every iteration consumes the reply of its status
    query.  The reply of the extra query made with [teardown = True] is
    assigned and never read, so it is not part of the input.  The directory
    listing passed to the hosts and the status printed by [loop_logger] do
    not enter any decision of the loop and are left out. *)
Fixpoint polling_loop (w : world) (run_farm : RunFarm)
    (use_mock_instances_for_testing teardown_required : bool)
    (replies : list instancestates) : io loop_status :=
  match replies with
  | [] => mret Polling
  | instancestates :: replies =>
      let teardown := false in
      execute w (monitor_jobs_wrapper teardown) (all_runfarm_ips run_farm);;
      let global_status := global_status instancestates in
      if teardown_required && any global_status then
        emit (LogInfo teardown_msg);;
        kill_simulation_passes w run_farm use_mock_instances_for_testing false;;
        let teardown := true in
        execute w (monitor_jobs_wrapper teardown) (all_runfarm_ips run_farm);;
        mret Exited
      else if negb teardown_required && all global_status then mret Exited
      else
        emit (Sleep 10);;
        polling_loop w run_farm use_mock_instances_for_testing
          teardown_required replies
  end.

(** [isinstance(self.firesimtopol.roots[0], FireSimSwitchNode)] *)
Definition teardown_required (t : FireSimTopology) : outcome bool :=
  root ← list_getitem (roots t) 0;
  Ok (isinstance_switch (class_of t root)).

(** Lines 602 to 665: the teardown decision and the polling loop. *)
Definition monitor_loop (w : world) (t : FireSimTopology) (run_farm : RunFarm)
    (use_mock_instances_for_testing : bool) (replies : list instancestates)
  : io loop_status :=
  teardown_required ← lift (teardown_required t);
  polling_loop w run_farm use_mock_instances_for_testing teardown_required
    replies.

(** Lines 667 to 678: the post-run hook and the closing message. *)
Definition post_workload (w : world) (workload : WorkloadConfig) : io unit :=
  match post_run_hook workload with
  | Some hook =>
      emit (LogInfo "Running post_run_hook...");;
      local w (run_post_run_hook hook);;
      mret ()
  | None => mret ()
  end;;
  emit (LogInfo success_msg).

(** Lines 602 to 678: the monitor loop, and once it is left the post-run
    hook and the closing message. *)
Definition monitor_and_finish (w : world) (t : FireSimTopology)
    (run_farm : RunFarm) (workload : WorkloadConfig)
    (use_mock_instances_for_testing : bool) (replies : list instancestates)
  : io loop_status :=
  st ← monitor_loop w t run_farm use_mock_instances_for_testing replies;
  match st with
  | Polling => mret Polling
  | Exited => post_workload w workload;; mret Exited
  end.

(** The method.  Its first statement, line 508, tests the run farm against
    the class [AWSEC2F1]. *)
Definition run_workload_passes (w : world) (t : FireSimTopology)
    (run_farm : RunFarm) (workload : WorkloadConfig)
    (use_mock_instances_for_testing : bool) (replies : list instancestates)
  : io loop_status :=
  is_aws ← lift (isinstance_AWSEC2F1 run_farm);
  (if is_aws : bool
   then emit (BindInstances use_mock_instances_for_testing) else mret ());;
  emit (LogInfo "Creating the directory");;
  local w mkdir_job_results_dir;;
  boot_simulation_passes w run_farm false true;;
  monitor_and_finish w t run_farm workload use_mock_instances_for_testing
    replies.

(** The new events of a command run from the empty trace. *)
Definition trace_of {A : Type} (m : io A) : list event := (m []).1.
Definition result_of {A : Type} (m : io A) : outcome A := (m []).2.

(** A machine of the traversal holds an address the allocator has issued. *)
Definition has_mac_below (t : FireSimTopology) (s : pipeline) (n : node_id)
  : Prop :=
  isinstance_server (class_of t n) = true →
  ∃ m, mac_address s n = Some m ∧ m < next_mac_alloc s.

(** The table of [switch] has one slot per issued address, and a slot whose
    address is below none of the downlinks holds the uplink port. *)
Definition table_ok (t : FireSimTopology) (s : pipeline) (switch : node_id)
  : Prop :=
  length (switch_table s switch) = next_mac_to_allocate s
  ∧ ∀ a, a < next_mac_to_allocate s →
         (∀ d, d ∈ downlinks t switch → a ∉ downlinkmacs s d) →
         switch_table s switch !! a = Some (length (downlinks t switch)).

(** The inventory of the spec's packing example: capacities 4, 2 and 8,
    and a switch-only host. *)
Definition example_farm : list Inst :=
  [new_host "10.0.0.1" true 4; new_host "10.0.0.2" true 2;
   new_host "10.0.0.3" false 0; new_host "10.0.0.4" true 8].

(** The two filters of the mapping passes. *)
Definition accelerators (run_farm_nodes : list Inst) : list Inst :=
  filter (λ x, is_fpga_node x = true) run_farm_nodes.

Definition switch_only (run_farm_nodes : list Inst) : list Inst :=
  filter (λ x, is_fpga_node x = false) run_farm_nodes.

(** The accelerator hosts of the example. *)
Definition example_fpga_nodes : list Inst := accelerators example_farm.

(** A topology without switches: [n] machines, all of them roots. *)
Definition machines_only (n : nat) : FireSimTopology :=
  {| roots := seq 0 n;
     class_of := λ _, FireSimServerNode;
     downlinks := λ _, [];
     get_dfs_order := seq 0 n |}.

(** A switch whose non-placeholder downlinks are neither all switches nor
    all machines. *)
Definition mixed_downlinks (t : FireSimTopology) (switch : node_id) : bool :=
  negb (all_switches t (alldownlinknodes t switch))
  && negb (all_servers t (alldownlinknodes t switch)).

Definition empty_host (h : Inst) : Prop :=
  switch_slots h = [] ∧ fpga_slots h = [].

(** The same host object, whatever has been assigned to it. *)
Definition same_host (h h' : Inst) : Prop :=
  get_ip h = get_ip h' ∧ is_fpga_node h = is_fpga_node h'
  ∧ get_num_fpga_slots_max h = get_num_fpga_slots_max h'.

(** A switch-only host as the loop of the simple networked pass leaves
    it: untouched, or holding one switch whose non-placeholder downlinks are all switches. *)
Definition switch_host_ok (t : FireSimTopology) (h : Inst) : Prop :=
  fpga_slots h = []
  ∧ (switch_slots h = []
     ∨ ∃ sw, sw ∈ get_dfs_order_switches t
             ∧ all_switches t (alldownlinknodes t sw) = true
             ∧ switch_slots h = [sw]).

(** An accelerator host as the loop of the simple networked pass leaves
    it: untouched, or holding one switch and exactly its machine children, within its slots. *)
Definition fpga_host_ok (t : FireSimTopology) (h : Inst) : Prop :=
  empty_host h
  ∨ ∃ sw, sw ∈ get_dfs_order_switches t
          ∧ all_switches t (alldownlinknodes t sw) = false
          ∧ all_servers t (alldownlinknodes t sw) = true
          ∧ switch_slots h = [sw]
          ∧ fpga_slots h = alldownlinknodes t sw
          ∧ length (alldownlinknodes t sw) ≤ get_num_fpga_slots_max h.

(** Two leaf switches of two machines each under a root switch. *)
Definition two_leaves_tree : FireSimTopology :=
  {| roots := [6];
     class_of := λ n, if decide (n ∈ [2; 5; 6]) then FireSimSwitchNode
                      else FireSimServerNode;
     downlinks := λ n, match n with
                       | 2 => [0; 1]
                       | 5 => [3; 4]
                       | 6 => [2; 5]
                       | _ => []
                       end;
     get_dfs_order := [0; 1; 2; 3; 4; 5; 6] |}.

(** One switch over three machines. *)
Definition one_switch_tree : FireSimTopology :=
  {| roots := [3];
     class_of := λ n, if decide (n = 3) then FireSimSwitchNode
                      else FireSimServerNode;
     downlinks := λ n, match n with 3 => [0; 1; 2] | _ => [] end;
     get_dfs_order := [0; 1; 2; 3] |}.

(** A leaf switch 1 over machine 0, and a root switch 3 over the switch 1
    and the machine 2. *)
Definition mixed_tree : FireSimTopology :=
  {| roots := [3];
     class_of := λ n, if decide (n ∈ [1; 3]) then FireSimSwitchNode
                      else FireSimServerNode;
     downlinks := λ n, match n with 1 => [0] | 3 => [1; 2] | _ => [] end;
     get_dfs_order := [0; 1; 2; 3] |}.

(** One accelerator host of capacity 3. *)
Definition one_host_farm : list Inst := [new_host "10.0.0.1" true 3].

(** One switch-only host and one accelerator host of capacity 4. *)
Definition big_host_farm : list Inst :=
  [new_host "10.0.0.1" false 0; new_host "10.0.0.2" true 4].

(** Two accelerator hosts of capacity 3. *)
Definition twin_host_farm : list Inst :=
  [new_host "10.0.0.1" true 3; new_host "10.0.0.2" true 3].

(** ** Vocabulary for the monitor loop *)










(** ** Example worlds and runs *)

(** Every host answers, every local command succeeds, Fabric's defaults. *)
Definition calm_world : world :=
  {| reachable := λ _, true; local_status := λ _, 0; env_warn_only := false |}.

(** The host 10.0.0.2 cannot be reached. *)
Definition one_host_down : world :=
  {| reachable := λ h, bool_decide (h ≠ "10.0.0.2");
     local_status := λ _, 0; env_warn_only := false |}.

(** The post-run hook exits with status 1. *)
Definition failing_hook_world (warn_only : bool) : world :=
  {| reachable := λ _, true;
     local_status := λ c, match c with
                          | run_post_run_hook _ => 1
                          | mkdir_job_results_dir => 0
                          end;
     env_warn_only := warn_only |}.

Definition twin_farm : RunFarm :=
  {| is_AWSEC2F1 := true; get_all_host_nodes := twin_host_farm |}.

Definition example_workload : WorkloadConfig :=
  {| job_results_dir := "results-workload"; post_run_hook := Some "hook.sh" |}.

(** Three independent machines as roots. *)
Definition three_machines : FireSimTopology :=
  {| roots := [0; 1; 2];
     class_of := λ _, FireSimServerNode;
     downlinks := λ _, [];
     get_dfs_order := [0; 1; 2] |}.

(** A switch as first root and a machine as second root. *)
Definition switch_then_machine : FireSimTopology :=
  {| roots := [1; 2];
     class_of := λ n, if decide (n = 1) then FireSimSwitchNode
                      else FireSimServerNode;
     downlinks := λ n, match n with 1 => [0] | _ => [] end;
     get_dfs_order := [0; 1; 2] |}.

(** A machine as first root and a switch as second root. *)
Definition machine_then_switch : FireSimTopology :=
  {| roots := [2; 1];
     class_of := λ n, if decide (n = 1) then FireSimSwitchNode
                      else FireSimServerNode;
     downlinks := λ n, match n with 1 => [0] | _ => [] end;
     get_dfs_order := [0; 1; 2] |}.

(** The reply of two hosts, one simulation each. *)
Definition two_host_reply (a b : bool) : instancestates :=
  [("10.0.0.1", {| switches := ∅; sims := {["job0" := a]} |});
   ("10.0.0.2", {| switches := ∅; sims := {["job1" := b]} |})].

(** The reply of two hosts for three jobs. *)
Definition three_job_reply (a b c : bool) : instancestates :=
  [("10.0.0.1", {| switches := ∅; sims := {["job0" := a; "job1" := b]} |});
   ("10.0.0.2", {| switches := ∅; sims := {["job2" := c]} |})].

(** What the first loop of the table pass leaves at a node: a machine
    advertises its own address, a switch the addresses of its downlinks in
    port order. *)
Definition downlinkmacs_ok (t : FireSimTopology) (s : pipeline) (n : node_id)
  : Prop :=
  if isinstance_server (class_of t n)
  then ∃ m, mac_address s n = Some m ∧ downlinkmacs s n = [m]
  else downlinkmacs s n = concat (map (downlinkmacs s) (downlinks t n)).

(** A switch of the traversal that has no downlink at all. *)
Definition childless_switch (t : FireSimTopology) (n : node_id) : Prop :=
  isinstance_server (class_of t n) = false ∧ downlinks t n = [].

(** A lone switch without downlinks. *)
Definition lone_switch : FireSimTopology :=
  {| roots := [0]; class_of := λ _, FireSimSwitchNode;
     downlinks := λ _, []; get_dfs_order := [0] |}.

(** A topology without roots. *)
Definition no_roots : FireSimTopology :=
  {| roots := []; class_of := λ _, FireSimServerNode;
     downlinks := λ _, []; get_dfs_order := [] |}.

(** Two hosts that report the same simulation name. *)
Definition clashing_reply (a b : bool) : instancestates :=
  [("10.0.0.1", {| switches := ∅; sims := {["job0" := a]} |});
   ("10.0.0.2", {| switches := ∅; sims := {["job0" := b]} |})].

(** ** [pass_apply_default_network_params] *)

(** The per-node network and tracing attributes the pass looks at; [None]
    is Python's [None], an attribute the user topology left unset. *)
Record node_params : Type := {
  switch_link_latency : option Z;
  switch_switching_latency : option Z;
  switch_bandwidth : option Z;
  server_link_latency : option Z;
  server_bw_max : option Z;
  server_profile_interval : option Z;
  trace_enable : option bool;
  trace_select : option string;
  trace_start : option string;
  trace_end : option string;
  trace_output_format : option string;
  autocounter_readrate : option Z;
  zerooutdram : option bool;
  disable_asserts : option bool;
  print_start : option string;
  print_end : option string;
  print_cycle_prefix : option bool
}.

(** The defaults held by the [FireSimTopologyWithPasses] object. *)
Record default_params : Type := {
  defaultlinklatency : Z;
  defaultswitchinglatency : Z;
  defaultnetbandwidth : Z;
  defaultprofileinterval : Z;
  defaulttraceenable : bool;
  defaulttraceselect : string;
  defaulttracestart : string;
  defaulttraceend : string;
  defaulttraceoutputformat : string;
  defaultautocounterreadrate : Z;
  defaultzerooutdram : bool;
  defaultdisableasserts : bool;
  defaultprintstart : string;
  defaultprintend : string;
  defaultprintcycleprefix : bool
}.

(** [if x is None: x = default] *)
Definition if_none {A : Type} (d : A) (o : option A) : option A :=
  match o with
  | None => Some d
  | Some v => Some v
  end.

(** The branch for [isinstance(node, FireSimSwitchNode)]. *)
Definition default_switch_params (c : default_params) (p : node_params)
  : node_params :=
  {| switch_link_latency := if_none (defaultlinklatency c) (switch_link_latency p);
     switch_switching_latency := if_none (defaultswitchinglatency c) (switch_switching_latency p);
     switch_bandwidth := if_none (defaultnetbandwidth c) (switch_bandwidth p);
     server_link_latency := server_link_latency p;
     server_bw_max := server_bw_max p;
     server_profile_interval := server_profile_interval p;
     trace_enable := trace_enable p;
     trace_select := trace_select p;
     trace_start := trace_start p;
     trace_end := trace_end p;
     trace_output_format := trace_output_format p;
     autocounter_readrate := autocounter_readrate p;
     zerooutdram := zerooutdram p;
     disable_asserts := disable_asserts p;
     print_start := print_start p;
     print_end := print_end p;
     print_cycle_prefix := print_cycle_prefix p |}.

(** The branch for [isinstance(node, FireSimServerNode)]. *)
Definition default_server_params (c : default_params) (p : node_params)
  : node_params :=
  {| switch_link_latency := switch_link_latency p;
     switch_switching_latency := switch_switching_latency p;
     switch_bandwidth := switch_bandwidth p;
     server_link_latency := if_none (defaultlinklatency c) (server_link_latency p);
     server_bw_max := if_none (defaultnetbandwidth c) (server_bw_max p);
     server_profile_interval := if_none (defaultprofileinterval c) (server_profile_interval p);
     trace_enable := if_none (defaulttraceenable c) (trace_enable p);
     trace_select := if_none (defaulttraceselect c) (trace_select p);
     trace_start := if_none (defaulttracestart c) (trace_start p);
     trace_end := if_none (defaulttraceend c) (trace_end p);
     trace_output_format := if_none (defaulttraceoutputformat c) (trace_output_format p);
     autocounter_readrate := if_none (defaultautocounterreadrate c) (autocounter_readrate p);
     zerooutdram := if_none (defaultzerooutdram c) (zerooutdram p);
     disable_asserts := if_none (defaultdisableasserts c) (disable_asserts p);
     print_start := if_none (defaultprintstart c) (print_start p);
     print_end := if_none (defaultprintend c) (print_end p);
     print_cycle_prefix := if_none (defaultprintcycleprefix c) (print_cycle_prefix p) |}.

(** What one iteration does to the attributes of [node]. *)
Definition apply_defaults_to (t : FireSimTopology) (c : default_params)
    (node : node_id) (p : node_params) : node_params :=
  let p := if isinstance_switch (class_of t node)
           then default_switch_params c p else p in
  if isinstance_server (class_of t node)
  then default_server_params c p else p.

Definition default_params_body (t : FireSimTopology) (c : default_params)
    (params : node_id → node_params) (node : node_id)
  : node_id → node_params :=
  <[node := apply_defaults_to t c node (params node)]> params.

Definition pass_apply_default_network_params (t : FireSimTopology)
    (c : default_params) (params : node_id → node_params)
  : node_id → node_params :=
  let allnodes := get_dfs_order t in
  foldl (default_params_body t c) params allnodes.

(** A value that was set stays as it is. *)
Definition keeps {A : Type} (o o' : option A) : Prop :=
  ∀ v, o = Some v → o' = Some v.

Definition keeps_user_values (p p' : node_params) : Prop :=
  keeps (switch_link_latency p) (switch_link_latency p') ∧
  keeps (switch_switching_latency p) (switch_switching_latency p') ∧
  keeps (switch_bandwidth p) (switch_bandwidth p') ∧
  keeps (server_link_latency p) (server_link_latency p') ∧
  keeps (server_bw_max p) (server_bw_max p') ∧
  keeps (server_profile_interval p) (server_profile_interval p') ∧
  keeps (trace_enable p) (trace_enable p') ∧
  keeps (trace_select p) (trace_select p') ∧
  keeps (trace_start p) (trace_start p') ∧
  keeps (trace_end p) (trace_end p') ∧
  keeps (trace_output_format p) (trace_output_format p') ∧
  keeps (autocounter_readrate p) (autocounter_readrate p') ∧
  keeps (zerooutdram p) (zerooutdram p') ∧
  keeps (disable_asserts p) (disable_asserts p') ∧
  keeps (print_start p) (print_start p') ∧
  keeps (print_end p) (print_end p') ∧
  keeps (print_cycle_prefix p) (print_cycle_prefix p').

(** An attribute after [if x is None: x = d]: the value it had, or [d]
    when it had none. *)
Definition filled {A : Type} (d : A) (o o' : option A) : Prop :=
  o' = Some (default d o).

(** Every switch attribute holds the user's value or the default that the
    pass assigns to it. *)
Definition switch_defaults_applied (c : default_params) (p p' : node_params)
  : Prop :=
  filled (defaultlinklatency c) (switch_link_latency p) (switch_link_latency p') ∧
  filled (defaultswitchinglatency c) (switch_switching_latency p)
    (switch_switching_latency p') ∧
  filled (defaultnetbandwidth c) (switch_bandwidth p) (switch_bandwidth p').

(** Every machine attribute holds the user's value or the default that the
    pass assigns to it. *)
Definition server_defaults_applied (c : default_params) (p p' : node_params)
  : Prop :=
  filled (defaultlinklatency c) (server_link_latency p) (server_link_latency p') ∧
  filled (defaultnetbandwidth c) (server_bw_max p) (server_bw_max p') ∧
  filled (defaultprofileinterval c) (server_profile_interval p)
    (server_profile_interval p') ∧
  filled (defaulttraceenable c) (trace_enable p) (trace_enable p') ∧
  filled (defaulttraceselect c) (trace_select p) (trace_select p') ∧
  filled (defaulttracestart c) (trace_start p) (trace_start p') ∧
  filled (defaulttraceend c) (trace_end p) (trace_end p') ∧
  filled (defaulttraceoutputformat c) (trace_output_format p)
    (trace_output_format p') ∧
  filled (defaultautocounterreadrate c) (autocounter_readrate p)
    (autocounter_readrate p') ∧
  filled (defaultzerooutdram c) (zerooutdram p) (zerooutdram p') ∧
  filled (defaultdisableasserts c) (disable_asserts p) (disable_asserts p') ∧
  filled (defaultprintstart c) (print_start p) (print_start p') ∧
  filled (defaultprintend c) (print_end p) (print_end p') ∧
  filled (defaultprintcycleprefix c) (print_cycle_prefix p)
    (print_cycle_prefix p').

(** The attributes of the other kind of node are as they were. *)
Definition switch_params_untouched (p p' : node_params) : Prop :=
  switch_link_latency p' = switch_link_latency p ∧
  switch_switching_latency p' = switch_switching_latency p ∧
  switch_bandwidth p' = switch_bandwidth p.

Definition server_params_untouched (p p' : node_params) : Prop :=
  server_link_latency p' = server_link_latency p ∧
  server_bw_max p' = server_bw_max p ∧
  server_profile_interval p' = server_profile_interval p ∧
  trace_enable p' = trace_enable p ∧
  trace_select p' = trace_select p ∧
  trace_start p' = trace_start p ∧
  trace_end p' = trace_end p ∧
  trace_output_format p' = trace_output_format p ∧
  autocounter_readrate p' = autocounter_readrate p ∧
  zerooutdram p' = zerooutdram p ∧
  disable_asserts p' = disable_asserts p ∧
  print_start p' = print_start p ∧
  print_end p' = print_end p ∧
  print_cycle_prefix p' = print_cycle_prefix p.

(** No attribute set by the user. *)
Definition unset_params : node_params :=
  {| switch_link_latency := None;
     switch_switching_latency := None;
     switch_bandwidth := None;
     server_link_latency := None;
     server_bw_max := None;
     server_profile_interval := None;
     trace_enable := None;
     trace_select := None;
     trace_start := None;
     trace_end := None;
     trace_output_format := None;
     autocounter_readrate := None;
     zerooutdram := None;
     disable_asserts := None;
     print_start := None;
     print_end := None;
     print_cycle_prefix := None |}.

Definition example_defaults : default_params :=
  {| defaultlinklatency := 6405; defaultswitchinglatency := 10;
     defaultnetbandwidth := 200; defaultprofileinterval := -1;
     defaulttraceenable := false; defaulttraceselect := "1";
     defaulttracestart := "0"; defaulttraceend := "-1";
     defaulttraceoutputformat := "0"; defaultautocounterreadrate := 0;
     defaultzerooutdram := false; defaultdisableasserts := false;
     defaultprintstart := "0"; defaultprintend := "-1";
     defaultprintcycleprefix := true |}.

(** ** [pass_perform_host_node_mapping] *)

(** The result of the mapping pass: which strategy ran, and the hosts as it
    left them; [Unmapped] when the pass returns without running any. *)
Inductive host_mapping : Type :=
| NoNetMapping (fpga_nodes : list Inst)
| NetworkedMapping (switch_nodes fpga_nodes : list Inst)
| CustomMapping (hosts : list Inst)
| Unmapped.

(** [firesimtopol.custom_mapper]: [None], a callable, the name of a method
    of the object, or anything else.  What a callable does to the hosts,
    and what [getattr(self, name)()] does, is given from outside. *)
Inductive custom_mapper : Type :=
| mapper_None
| mapper_callable (f : list Inst → outcome (list Inst))
| mapper_str (name : string)
| mapper_other.

Definition pass_perform_host_node_mapping (t : FireSimTopology)
    (run_farm : RunFarm) (mapper : custom_mapper)
    (getattr_self : string → list Inst → outcome (list Inst))
  : outcome host_mapping :=
  asserted ← isinstance_AWSEC2F1 run_farm;
  if asserted : bool then
    is_aws ← isinstance_AWSEC2F1 run_farm;
    if is_aws : bool then
      match mapper with
      | mapper_None =>
          if all_servers t (roots t) then
            fpga_nodes ←
              pass_no_net_host_mapping t (get_all_host_nodes run_farm);
            Ok (NoNetMapping fpga_nodes)
          else
            '(switch_nodes, fpga_nodes) ←
              pass_simple_networked_host_node_mapping t
                (get_all_host_nodes run_farm);
            Ok (NetworkedMapping switch_nodes fpga_nodes)
      | mapper_callable f =>
          hosts ← f (get_all_host_nodes run_farm);
          Ok (CustomMapping hosts)
      | mapper_str name =>
          hosts ← getattr_self name (get_all_host_nodes run_farm);
          Ok (CustomMapping hosts)
      | mapper_other => Raise (AssertionError "IMPROPER MAPPING CONFIGURATION")
      end
    else Ok Unmapped
  else Raise (AssertionError "").

(** * Theorems *)

(** ** Generic facts *)

Lemma isinstance_switch_server (c : node_class) :
  isinstance_switch c = negb (isinstance_server c).
Proof. by destruct c. Qed.

Lemma foldl_app_Forall {A : Type} (P : A → Prop) (ls : list (list A)) :
  ∀ l, Forall P l → Forall (Forall P) ls → Forall P (foldl app l ls).
Proof.
  induction ls as [|l' ls IH]; intros l Hl Hls; simpl; [done|].
  inversion Hls; subst. apply IH; [|done]. by apply Forall_app.
Qed.

(** ** Address assignment *)

Section assign.
Context (t : FireSimTopology).

Lemma assign_mac_body_keeps (s : pipeline) (a n : node_id) :
  has_mac_below t s n → has_mac_below t (assign_mac_body t s a) n.
Proof.
  intros H Hn. destruct (H Hn) as (m & Hm & Hlt).
  unfold assign_mac_body. destruct (isinstance_server (class_of t a)); [|eauto].
  simpl. destruct (decide (a = n)) as [->|Hne].
  - rewrite fn_lookup_insert. eexists; split; [done|lia].
  - rewrite fn_lookup_insert_ne by done. eexists; split; [done|lia].
Qed.

Lemma assign_mac_body_here (s : pipeline) (n : node_id) :
  has_mac_below t (assign_mac_body t s n) n.
Proof.
  intros Hn. unfold assign_mac_body. rewrite Hn. simpl.
  rewrite fn_lookup_insert. eexists; split; [done|lia].
Qed.

Lemma assign_loop_macs (l : list node_id) :
  ∀ s n, n ∈ l ∨ has_mac_below t s n →
         has_mac_below t (foldl (assign_mac_body t) s l) n.
Proof.
  induction l as [|a l IH]; intros s n [Hin|H]; simpl.
  - by apply elem_of_nil in Hin.
  - done.
  - apply IH. apply elem_of_cons in Hin as [->|Hin]; [right|by left].
    apply assign_mac_body_here.
  - apply IH. right. by apply assign_mac_body_keeps.
Qed.

Lemma assign_loop_next (l : list node_id) :
  ∀ s, next_mac_alloc (foldl (assign_mac_body t) s l)
       = next_mac_alloc s
         + length (filter (λ n, isinstance_server (class_of t n) = true) l).
Proof.
  induction l as [|a l IH]; intros s; simpl; [lia|].
  rewrite IH. unfold assign_mac_body. rewrite filter_cons.
  destruct (isinstance_server (class_of t a)) eqn:E; simpl.
  - lia.
  - lia.
Qed.

Lemma assign_loop_passes (l : list node_id) :
  ∀ s, passes_used (foldl (assign_mac_body t) s l) = passes_used s.
Proof.
  induction l as [|a l IH]; intros s; simpl; [done|].
  rewrite IH. unfold assign_mac_body.
  by destruct (isinstance_server (class_of t a)).
Qed.

Lemma pass_assign_mac_addresses_passes (s : pipeline) :
  passes_used (pass_assign_mac_addresses t s)
  = passes_used s ++ ["pass_assign_mac_addresses"].
Proof. unfold pass_assign_mac_addresses. by rewrite assign_loop_passes. Qed.

Lemma pass_assign_mac_addresses_next (s : pipeline) :
  next_mac_alloc (pass_assign_mac_addresses t s)
  = length (get_dfs_order_servers t).
Proof. unfold pass_assign_mac_addresses. by rewrite assign_loop_next. Qed.

Lemma pass_assign_mac_addresses_macs (s : pipeline) (n : node_id) :
  n ∈ get_dfs_order t → has_mac_below t (pass_assign_mac_addresses t s) n.
Proof. intros Hn. apply assign_loop_macs. by left. Qed.
End assign.

(** ** Switching tables *)

Section tables.
Context (t : FireSimTopology).

Lemma dfs_bottom_up_downlinks (order : list node_id) :
  ∀ seen sw d,
    dfs_bottom_up t seen order = true →
    sw ∈ order → isinstance_server (class_of t sw) = false →
    d ∈ downlinks t sw → d ∈ seen ∨ d ∈ order.
Proof.
  induction order as [|n order IH]; intros seen sw d Hwf Hsw Hcls Hd.
  - by apply elem_of_nil in Hsw.
  - simpl in Hwf. apply andb_true_iff in Hwf as [Hn Hrest].
    apply elem_of_cons in Hsw as [->|Hsw].
    + rewrite Hcls in Hn. apply andb_true_iff in Hn as [_ Hall].
      rewrite forallb_forall in Hall. left.
      apply list_elem_of_In, Hall, bool_decide_eq_true in Hd. done.
    + destruct (IH (n :: seen) sw d Hrest Hsw Hcls Hd) as [H|H].
      * apply elem_of_cons in H as [->|H]; [right; left|by left].
      * right. by right.
Qed.

(** The first loop succeeds on a bottom-up traversal, and every address
    it records has been issued. *)
Lemma downlinkmacs_loop (order : list node_id) :
  ∀ seen s,
    dfs_bottom_up t seen order = true →
    (∀ n, n ∈ order → has_mac_below t s n) →
    (∀ n, n ∈ seen → Forall (λ m, m < next_mac_alloc s) (downlinkmacs s n)) →
    ∃ s', for_each (downlinkmacs_body t) order s = Ok s'
          ∧ next_mac_alloc s' = next_mac_alloc s
          ∧ ∀ n, n ∈ seen ∨ n ∈ order →
                 Forall (λ m, m < next_mac_alloc s) (downlinkmacs s' n).
Proof.
  induction order as [|n order IH]; intros seen s Hwf Hmac Hseen; simpl.
  - exists s. split_and!; [done..|]. intros n [H|H]; [auto|].
    by apply elem_of_nil in H.
  - simpl in Hwf. apply andb_true_iff in Hwf as [Hn Hrest].
    assert (∃ macs, downlinkmacs_body t s n = Ok (set_downlinkmacs s n macs)
                    ∧ Forall (λ m, m < next_mac_alloc s) macs)
      as (macs & Hbody & Hmacs).
    { unfold downlinkmacs_body.
      destruct (isinstance_server (class_of t n)) eqn:Hcls.
      - destruct (Hmac n) as (m & Hm & Hlt); [by left|done|].
        unfold get_mac_address. rewrite Hm. simpl.
        eexists. split; [done|]. by repeat constructor.
      - apply andb_true_iff in Hn as [Hne Hall].
        apply negb_true_iff, bool_decide_eq_false in Hne.
        rewrite forallb_forall in Hall.
        destruct (downlinks t n) as [|d ds] eqn:Hds; [done|]. simpl.
        eexists. split; [done|].
        apply foldl_app_Forall.
        + apply Hseen. eapply bool_decide_eq_true, Hall. by left.
        + apply Forall_map, Forall_forall. intros x Hx. simpl.
          apply Hseen. eapply bool_decide_eq_true, Hall. right.
          by apply list_elem_of_In. }
    rewrite Hbody.
    destruct (IH (n :: seen) (set_downlinkmacs s n macs) Hrest)
      as (s' & Hs' & Hnext & Hall).
    + intros n' Hn'. apply Hmac. by right.
    + intros n' Hn'. simpl. destruct (decide (n = n')) as [->|Hne].
      * by rewrite fn_lookup_insert.
      * rewrite fn_lookup_insert_ne by done.
        apply elem_of_cons in Hn' as [->|Hn']; [done|by apply Hseen].
    + exists s'. split_and!; [done..|]. intros n' Hn'. apply Hall.
      destruct Hn' as [H|H]; [left; by right|].
      apply elem_of_cons in H as [->|H]; [left; by left|by right].
Qed.

Lemma fill_port_spec (port_no : nat) (portmacs : list nat) :
  ∀ tab, Forall (λ m, m < length tab) portmacs →
    ∃ tab', fill_port port_no tab portmacs = Ok tab'
            ∧ length tab' = length tab
            ∧ ∀ a, a ∉ portmacs → tab' !! a = tab !! a.
Proof.
  unfold fill_port.
  induction portmacs as [|m macs IH]; intros tab Hall; simpl.
  - by exists tab.
  - inversion Hall as [|?? Hm Hrest]; subst.
    unfold list_setitem. rewrite decide_True by done.
    destruct (IH (<[m := port_no]> tab)) as (tab' & Hrun & Hlen & Hother).
    { by rewrite length_insert. }
    exists tab'. rewrite length_insert in Hlen. split_and!; [done..|].
    intros a Ha. apply not_elem_of_cons in Ha as [Hne Ha].
    rewrite Hother by done. by apply list_lookup_insert_ne.
Qed.

Lemma port_loop_spec (s : pipeline) (switch : node_id) (ports : list nat) :
  ∀ tab,
    (∀ p, p ∈ ports → p < length (downlinks t switch)) →
    (∀ d, d ∈ downlinks t switch →
          Forall (λ m, m < length tab) (downlinkmacs s d)) →
    ∃ tab',
      for_each
        (λ tab port_no,
           d ← list_getitem (downlinks t switch) port_no;
           fill_port port_no tab (downlinkmacs s d)) ports tab = Ok tab'
      ∧ length tab' = length tab
      ∧ ∀ a, (∀ d, d ∈ downlinks t switch → a ∉ downlinkmacs s d) →
             tab' !! a = tab !! a.
Proof.
  induction ports as [|p ports IH]; intros tab Hports Hmacs; simpl.
  - by exists tab.
  - destruct (lookup_lt_is_Some_2 (downlinks t switch) p) as [d Hd].
    { apply Hports. by left. }
    unfold list_getitem. rewrite Hd. simpl.
    assert (d ∈ downlinks t switch) as Hin by by eapply list_elem_of_lookup_2.
    destruct (fill_port_spec p (downlinkmacs s d) tab (Hmacs d Hin))
      as (tab1 & Hfill & Hlen1 & Hother1).
    rewrite Hfill.
    destruct (IH tab1) as (tab' & Hrun & Hlen & Hother).
    { intros q Hq. apply Hports. by right. }
    { intros d' Hd'. rewrite Hlen1. by apply Hmacs. }
    exists tab'. split_and!; [done|congruence|].
    intros a Ha. rewrite Hother by done. apply Hother1. by apply Ha.
Qed.

Lemma build_switch_table_spec (s : pipeline) (switch : node_id) :
  (∀ d, d ∈ downlinks t switch →
        Forall (λ m, m < next_mac_alloc s) (downlinkmacs s d)) →
  ∃ tab, build_switch_table t s switch = Ok tab
         ∧ length tab = next_mac_to_allocate s
         ∧ ∀ a, a < next_mac_to_allocate s →
                (∀ d, d ∈ downlinks t switch → a ∉ downlinkmacs s d) →
                tab !! a = Some (length (downlinks t switch)).
Proof.
  intros Hmacs. unfold build_switch_table, next_mac_to_allocate.
  destruct (port_loop_spec s switch (seq 0 (length (downlinks t switch)))
              (replicate (next_mac_alloc s) (length (downlinks t switch))))
    as (tab & Hrun & Hlen & Hother).
  - intros p Hp. apply elem_of_seq in Hp. lia.
  - intros d Hd. rewrite length_replicate. by apply Hmacs.
  - exists tab. rewrite length_replicate in Hlen. split_and!; [done..|].
    intros a Ha Hnot. rewrite Hother by done.
    by apply lookup_replicate_2.
Qed.

(** The second loop writes a good table for every switch it visits and
    keeps the good tables it wrote before. *)
Lemma switch_table_loop (switches : list node_id) :
  ∀ s,
    (∀ sw d, sw ∈ switches → d ∈ downlinks t sw →
             Forall (λ m, m < next_mac_alloc s) (downlinkmacs s d)) →
    ∃ s', for_each (switch_table_body t) switches s = Ok s'
          ∧ next_mac_alloc s' = next_mac_alloc s
          ∧ downlinkmacs s' = downlinkmacs s
          ∧ ∀ sw, sw ∈ switches ∨ table_ok t s sw → table_ok t s' sw.
Proof.
  induction switches as [|sw0 switches IH]; intros s Hmacs; simpl.
  - exists s. split_and!; [done..|]. intros sw [H|H]; [|done].
    by apply elem_of_nil in H.
  - unfold switch_table_body at 1.
    destruct (build_switch_table_spec s sw0) as (tab & Hb & Hlen & Hdef).
    { intros d Hd. eapply Hmacs; [by left|done]. }
    rewrite Hb. simpl.
    destruct (IH (set_switch_table s sw0 tab)) as (s' & Hrun & Hn & Hdm & Hok).
    { intros sw d Hsw Hd. simpl. eapply Hmacs; [by right|done]. }
    exists s'. split_and!; [done..|].
    intros sw Hsw. apply Hok.
    destruct (decide (sw = sw0)) as [->|Hne].
    + right. split; simpl; rewrite fn_lookup_insert; [done|].
      intros a Ha Hnot. by apply Hdef.
    + destruct Hsw as [Hsw|Hsw].
      * apply elem_of_cons in Hsw as [?|Hsw]; [done|by left].
      * right. destruct Hsw as [H1 H2].
        split; simpl; rewrite fn_lookup_insert_ne by done; done.
Qed.
End tables.

(** C6.  For every switch, after [pass_compute_switching_tables] has run
    (on a bottom-up traversal it does run to the end, after
    [pass_assign_mac_addresses]), the table has as many slots as addresses
    were allocated, which is the allocator's next-to-issue value, however
    many addresses lie below the switch; and every slot whose address is
    not below one of the switch's downlinks holds the uplink port number,
    the number of downlinks of the switch. *)
Theorem switch_table_length_and_default_uplink
    (t : FireSimTopology) (s0 : pipeline) :
  dfs_bottom_up t [] (get_dfs_order t) = true →
  ∃ s, pass_compute_switching_tables t (pass_assign_mac_addresses t s0) = Ok s
       ∧ next_mac_to_allocate s = length (get_dfs_order_servers t)
       ∧ ∀ switch, switch ∈ get_dfs_order_switches t →
           length (switch_table s switch) = length (get_dfs_order_servers t)
           ∧ length (switch_table s switch) = next_mac_to_allocate s
           ∧ ∀ a, a < next_mac_to_allocate s →
                  (∀ d, d ∈ downlinks t switch → a ∉ downlinkmacs s d) →
                  switch_table s switch !! a
                  = Some (length (downlinks t switch)).
Proof.
  intros Hwf. unfold pass_compute_switching_tables.
  rewrite decide_True
    by (rewrite pass_assign_mac_addresses_passes; set_solver).
  set (s1 := record_pass "pass_compute_switching_tables"
               (pass_assign_mac_addresses t s0)).
  assert (next_mac_alloc s1 = length (get_dfs_order_servers t)) as Hnext1
    by apply pass_assign_mac_addresses_next.
  destruct (downlinkmacs_loop t (get_dfs_order t) [] s1 Hwf)
    as (s2 & Hrun2 & Hnext2 & Hmacs2).
  { intros n Hn. by apply (pass_assign_mac_addresses_macs t s0). }
  { intros n Hn. by apply elem_of_nil in Hn. }
  rewrite Hrun2. simpl.
  destruct (switch_table_loop t (get_dfs_order_switches t) s2)
    as (s3 & Hrun3 & Hnext3 & Hdm3 & Hok3).
  { intros sw d Hsw Hd. rewrite Hnext2. apply Hmacs2.
    apply list_elem_of_filter in Hsw as [Hcls Hsw].
    rewrite isinstance_switch_server in Hcls.
    apply negb_true_iff in Hcls.
    eapply dfs_bottom_up_downlinks; eauto. }
  exists s3. split; [done|].
  assert (next_mac_to_allocate s3 = length (get_dfs_order_servers t)) as Hn3
    by (unfold next_mac_to_allocate; congruence).
  split; [done|]. intros sw Hsw.
  destruct (Hok3 sw (or_introl Hsw)) as [Hlen Hdef].
  split_and!; [congruence|done|done].
Qed.

Lemma switch_table_length_and_default_uplink_witness :
  dfs_bottom_up example_tree [] (get_dfs_order example_tree) = true
  ∧ ∃ s, pass_compute_switching_tables example_tree
           (pass_assign_mac_addresses example_tree fresh_pipeline) = Ok s
       ∧ next_mac_to_allocate s = length (get_dfs_order_servers example_tree)
       ∧ ∀ switch, switch ∈ get_dfs_order_switches example_tree →
           length (switch_table s switch)
           = length (get_dfs_order_servers example_tree)
           ∧ length (switch_table s switch) = next_mac_to_allocate s
           ∧ ∀ a, a < next_mac_to_allocate s →
                  (∀ d, d ∈ downlinks example_tree switch →
                        a ∉ downlinkmacs s d) →
                  switch_table s switch !! a
                  = Some (length (downlinks example_tree switch)).
Proof.
  split; [reflexivity|].
  apply (switch_table_length_and_default_uplink example_tree fresh_pipeline).
  reflexivity.
Defined.

(** The tables of the example: switch 2 sends the address of machine 3 to
    its uplink port 2, switch 4 sends those of machines 0 and 1 to its
    uplink port 1, and all three tables have the three slots. *)
Example example_tree_tables :
  match pass_compute_switching_tables example_tree
          (pass_assign_mac_addresses example_tree fresh_pipeline) with
  | Ok s => map (switch_table s) [2; 4; 5]
  | Raise _ => []
  end = [[0; 1; 2]; [1; 1; 0]; [0; 0; 1]].
Proof. reflexivity. Qed.

(** A switch without downlinks stops the pass: [reduce] has nothing to
    fold. *)
Example switch_without_downlinks :
  pass_compute_switching_tables
    {| roots := [0]; class_of := λ _, FireSimSwitchNode;
       downlinks := λ _, []; get_dfs_order := [0] |}
    (pass_assign_mac_addresses
       {| roots := [0]; class_of := λ _, FireSimSwitchNode;
          downlinks := λ _, []; get_dfs_order := [0] |} fresh_pipeline)
  = Raise TypeError.
Proof. reflexivity. Qed.

(** C9.  [pass_compute_switching_tables] entered before
    [pass_assign_mac_addresses] has been recorded fails at entry with the
    assertion error, whatever the topology; it yields no result state. *)
Theorem switching_tables_before_mac_assignment_fails
    (t : FireSimTopology) (s : pipeline) :
  "pass_assign_mac_addresses" ∉ passes_used s →
  pass_compute_switching_tables t s
  = Raise (AssertionError "")
  ∧ ∀ s', pass_compute_switching_tables t s ≠ Ok s'.
Proof.
  intros Hnot. unfold pass_compute_switching_tables.
  rewrite decide_False by done. split; [done|]. intros s' H. discriminate H.
Qed.

Lemma switching_tables_before_mac_assignment_fails_witness :
  ("pass_assign_mac_addresses" ∉ passes_used fresh_pipeline)
  ∧ pass_compute_switching_tables example_tree fresh_pipeline
    = Raise (AssertionError "")
  ∧ ∀ s', pass_compute_switching_tables example_tree fresh_pipeline ≠ Ok s'.
Proof.
  assert ("pass_assign_mac_addresses" ∉ passes_used fresh_pipeline) as H
    by apply not_elem_of_nil.
  split; [assumption|].
  exact (switching_tables_before_mac_assignment_fails example_tree fresh_pipeline H).
Defined.

(** The pass returns a state only when the assignment pass is recorded. *)
Lemma switching_tables_ok_after_mac_assignment
    (t : FireSimTopology) (s s' : pipeline) :
  pass_compute_switching_tables t s = Ok s' →
  "pass_assign_mac_addresses" ∈ passes_used s.
Proof.
  unfold pass_compute_switching_tables.
  destruct (decide ("pass_assign_mac_addresses" ∈ passes_used s)); [done|].
  discriminate.
Qed.

(** ** Stable sorting *)

Section sorting.
Context {A : Type} (before : A → A → bool).

Lemma insert_sorted_Permutation (x : A) (l : list A) :
  insert_sorted before x l ≡ₚ x :: l.
Proof.
  induction l as [|y l IH]; simpl; [done|].
  destruct (before x y); [done|]. rewrite IH. apply Permutation_swap.
Qed.

Lemma stable_sort_Permutation (l : list A) : stable_sort before l ≡ₚ l.
Proof.
  induction l as [|x l IH]; simpl; [done|].
  rewrite insert_sorted_Permutation. by rewrite IH.
Qed.
End sorting.

Section sort_reverse.
Context {A : Type} (key : A → nat).

Let before : A → A → bool := λ x y, bool_decide (key y ≤ key x).
Let R : relation A := λ x y, key y ≤ key x.

Lemma insert_reverse_sorted (x : A) (l : list A) :
  StronglySorted R l → StronglySorted R (insert_sorted before x l).
Proof.
  induction 1 as [|y l Hl IH Hy]; simpl.
  - by repeat constructor.
  - unfold before at 1. case_bool_decide as Hxy.
    + constructor; [by constructor|]. constructor; [done|].
      eapply Forall_impl; [exact Hy|]. unfold R. simpl. intros z Hz. lia.
    + constructor; [done|].
      rewrite insert_sorted_Permutation. constructor; [unfold R; lia|done].
Qed.

Lemma sort_by_key_reverse_sorted (l : list A) :
  StronglySorted R (sort_by_key_reverse key l).
Proof.
  induction l as [|x l IH]; simpl; [constructor|].
  by apply insert_reverse_sorted.
Qed.

Lemma insert_reverse_filter (k : nat) (x : A) (l : list A) :
  filter (λ y, key y = k) (insert_sorted before x l)
  = filter (λ y, key y = k) (x :: l).
Proof.
  induction l as [|y l IH]; simpl; [done|].
  unfold before at 1. case_bool_decide as Hxy; [done|].
  rewrite filter_cons, IH, !filter_cons.
  repeat case_decide; try done. lia.
Qed.

(** Hosts of equal capacity keep the order they had in the input. *)
Lemma sort_by_key_reverse_stable (k : nat) (l : list A) :
  filter (λ y, key y = k) (sort_by_key_reverse key l)
  = filter (λ y, key y = k) l.
Proof.
  unfold sort_by_key_reverse, stable_sort.
  induction l as [|x l IH]; simpl; [done|].
  rewrite insert_reverse_filter, !filter_cons. by rewrite IH.
Qed.
End sort_reverse.

(** ** No-network packing *)

Lemma foldl_add_simulation_slots (l : list node_id) :
  ∀ node, fpga_slots (foldl add_simulation node l) = fpga_slots node ++ l.
Proof.
  induction l as [|x l IH]; intros node; simpl.
  - by rewrite app_nil_r.
  - rewrite IH. simpl. by rewrite <- app_assoc.
Qed.

Lemma pack_nil (hosts : list Inst) : pack [] hosts = hosts.
Proof.
  induction hosts as [|h hosts IH]; simpl; [done|].
  by rewrite take_nil, drop_nil, IH.
Qed.

Lemma pack_concat (hosts : list Inst) :
  ∀ servers,
    Forall (λ h, fpga_slots h = []) hosts →
    concat (map fpga_slots (pack servers hosts))
    = take (total_slots hosts) servers.
Proof.
  induction hosts as [|h hosts IH]; intros servers Hempty; simpl.
  - done.
  - inversion Hempty as [|?? Hh Hrest]; subst.
    rewrite foldl_add_simulation_slots, Hh, IH by done. simpl.
    apply take_take_drop.
Qed.

Lemma pack_lookup (hosts : list Inst) :
  ∀ servers i h,
    hosts !! i = Some h →
    pack servers hosts !! i
    = Some (foldl add_simulation h
              (take (get_num_fpga_slots_max h)
                 (drop (total_slots (take i hosts)) servers))).
Proof.
  induction hosts as [|h0 hosts IH]; intros servers i h Hi; [done|].
  destruct i as [|i]; simpl in *.
  - by inversion Hi.
  - rewrite (IH _ _ _ Hi), drop_drop. done.
Qed.

Section no_net.
Context (servers : list node_id).

Lemma fill_slots_spec (nslots : nat) :
  ∀ node serverind,
    serverind < length servers →
    fill_slots servers nslots node serverind
    = Ok (let node' := foldl add_simulation node
                         (take nslots (drop serverind servers)) in
          if decide (length servers ≤ serverind + nslots)
          then Return (node', length servers)
          else Next (node', serverind + nslots)).
Proof.
  induction nslots as [|k IH]; intros node i Hi; simpl.
  - rewrite decide_False by lia. by rewrite Nat.add_0_r.
  - destruct (lookup_lt_is_Some_2 servers i Hi) as [x Hx].
    unfold list_getitem. rewrite Hx. simpl.
    rewrite (drop_S _ _ _ Hx). simpl.
    destruct (decide (length servers = i + 1)) as [Heq|Hne].
    + rewrite decide_True by lia.
      rewrite (drop_ge servers (S i)) by lia. rewrite take_nil.
      simpl. by rewrite Heq.
    + rewrite IH by lia.
      replace (i + 1) with (S i) by lia.
      replace (i + S k) with (S i + k) by lia. done.
Qed.

Lemma fill_nodes_spec (fpga_nodes : list Inst) :
  ∀ serverind,
    serverind < length servers →
    fill_nodes servers fpga_nodes serverind
    = Ok (let nodes' := pack (drop serverind servers) fpga_nodes in
          if decide (length servers ≤ serverind + total_slots fpga_nodes)
          then Return (nodes', length servers)
          else Next (nodes', serverind + total_slots fpga_nodes)).
Proof.
  induction fpga_nodes as [|node rest IH]; intros i Hi; simpl.
  - unfold total_slots. simpl. rewrite decide_False by lia.
    by rewrite Nat.add_0_r.
  - rewrite fill_slots_spec by done. simpl.
    unfold total_slots. simpl. fold (total_slots rest).
    destruct (decide (length servers ≤ i + get_num_fpga_slots_max node))
      as [Hle|Hgt].
    + rewrite decide_True by lia.
      rewrite drop_drop.
      rewrite (drop_ge servers (i + get_num_fpga_slots_max node)) by lia.
      by rewrite pack_nil.
    + rewrite IH by lia. simpl. rewrite drop_drop.
      destruct (decide (length servers
                        ≤ i + get_num_fpga_slots_max node + total_slots rest));
        [rewrite decide_True by lia|rewrite decide_False by lia];
        simpl; [done|by rewrite Nat.add_assoc].
Qed.
End no_net.

(** X22.  The statements of the pass after line 195 visit the hosts bound to
    [fpga_nodes] by descending slot capacity, hosts of equal capacity in
    input order.  With enough slots in total every machine is assigned: the
    loop succeeds, the hosts taken together hold every machine once, in DFS
    order, and every host holds the run of machines that follows the
    capacities of the hosts before it, as many as it has slots, so a host
    receives machines only once the larger ones are full.  With fewer slots
    than machines the final assertion fails. *)
Theorem no_net_packing_loop_packs (servers : list node_id)
    (fpga_nodes : list Inst) :
  Forall (λ h, fpga_slots h = []) fpga_nodes →
  let sorted := largest_first fpga_nodes in
  (sorted ≡ₚ fpga_nodes
   ∧ StronglySorted
       (λ x y, get_num_fpga_slots_max y ≤ get_num_fpga_slots_max x) sorted
   ∧ ∀ k, filter (λ x, get_num_fpga_slots_max x = k) sorted
          = filter (λ x, get_num_fpga_slots_max x = k) fpga_nodes)
  ∧ (length servers ≤ total_slots sorted →
     ∀ server, server ∈ servers →
     ∃ hosts,
       no_net_packing_loop servers fpga_nodes = Ok hosts
       ∧ concat (map fpga_slots hosts) = servers
       ∧ ∀ i h, sorted !! i = Some h →
           hosts !! i
           = Some (foldl add_simulation h
                     (take (get_num_fpga_slots_max h)
                        (drop (total_slots (take i sorted)) servers))))
  ∧ (total_slots sorted < length servers →
     no_net_packing_loop servers fpga_nodes
     = Raise (AssertionError "ERR: all servers were not assigned to a host.")).
Proof.
  intros Hempty sorted.
  assert (sorted ≡ₚ fpga_nodes) as Hperm by apply stable_sort_Permutation.
  split; [|split].
  - split_and!; [done| |].
    + apply sort_by_key_reverse_sorted.
    + intros k. apply sort_by_key_reverse_stable.
  - intros Hfit server Hin.
    assert (0 < length servers) as Hpos.
    { destruct servers; [by apply elem_of_nil in Hin|simpl; lia]. }
    exists (pack servers sorted). split_and!.
    + unfold no_net_packing_loop. fold sorted.
      rewrite fill_nodes_spec by done. simpl.
      by rewrite decide_True by lia.
    + rewrite pack_concat.
      * by apply take_ge.
      * apply Forall_forall. intros h Hh. rewrite Hperm in Hh.
        rewrite Forall_forall in Hempty. by apply Hempty.
    + intros i h Hi. by apply pack_lookup.
  - intros Hless.
    assert (0 < length servers) as Hpos by lia.
    unfold no_net_packing_loop. fold sorted.
    rewrite fill_nodes_spec by done. simpl.
    rewrite decide_False by lia. simpl. by rewrite decide_False by lia.
Qed.

Lemma no_net_packing_loop_packs_witness :
  Forall (λ h, fpga_slots h = []) example_fpga_nodes
  ∧ length (seq 0 10) ≤ total_slots (largest_first example_fpga_nodes)
  ∧ 3 ∈ seq 0 10
  ∧ ∃ hosts,
      no_net_packing_loop (seq 0 10) example_fpga_nodes = Ok hosts
      ∧ concat (map fpga_slots hosts) = seq 0 10
      ∧ ∀ i h, largest_first example_fpga_nodes !! i = Some h →
          hosts !! i
          = Some (foldl add_simulation h
                    (take (get_num_fpga_slots_max h)
                       (drop (total_slots
                                (take i (largest_first example_fpga_nodes)))
                          (seq 0 10)))).
Proof.
  assert (Forall (λ h, fpga_slots h = []) example_fpga_nodes) as Hempty
    by (repeat constructor).
  assert (length (seq 0 10)
          ≤ total_slots (largest_first example_fpga_nodes)) as Hfit
    by (vm_compute; lia).
  assert (3 ∈ seq 0 10) as Hin by (apply elem_of_seq; lia).
  split_and!; [assumption..|].
  exact (proj1 (proj2 (no_net_packing_loop_packs (seq 0 10) example_fpga_nodes
                         Hempty))
           Hfit 3 Hin).
Defined.

(** Capacities 4, 2 and 8 with 10 machines: the host of capacity 8 takes
    the first eight, the host of capacity 4 the other two. *)
Example no_net_packing_loop_10 :
  no_net_packing_loop (seq 0 10) example_fpga_nodes
  = Ok [foldl add_simulation (new_host "10.0.0.4" true 8) [0; 1; 2; 3; 4; 5; 6; 7];
        foldl add_simulation (new_host "10.0.0.1" true 4) [8; 9];
        new_host "10.0.0.2" true 2].
Proof. reflexivity. Qed.

(** The same hosts with 15 machines: 14 slots are filled and the final
    assertion fails. *)
Example no_net_packing_loop_15 :
  no_net_packing_loop (seq 0 15) example_fpga_nodes
  = Raise (AssertionError "ERR: all servers were not assigned to a host.").
Proof. reflexivity. Qed.

(** Without any machine the loop still indexes [servers[0]] as soon as a
    host has a slot. *)
Example no_net_packing_loop_0 :
  no_net_packing_loop [] example_fpga_nodes = Raise IndexError.
Proof. reflexivity. Qed.

(** [FPGAInst] is not a global of the module. *)
Lemma FPGAInst_unbound : global_name "FPGAInst" = Raise (NameError "FPGAInst").
Proof. reflexivity. Qed.

Lemma AWSEC2F1_unbound : global_name "AWSEC2F1" = Raise (NameError "AWSEC2F1").
Proof. reflexivity. Qed.

(** C5.  The no-network packing pass assigns no machine: on every topology
    and every inventory it raises [NameError] at line 195, where the name
    [FPGAInst], imported under [if TYPE_CHECKING:] only, is evaluated as
    an argument of [cast]; the sort and the packing loop are not reached.
    So with capacities 4, 2 and 8 and 10 machines no host is filled, and
    with 15 machines the error is not the assignment-completeness one. *)
Theorem no_net_pass_raises_NameError (t : FireSimTopology)
    (run_farm_nodes : list Inst) :
  pass_no_net_host_mapping t run_farm_nodes = Raise (NameError "FPGAInst").
Proof. unfold pass_no_net_host_mapping. by rewrite FPGAInst_unbound. Qed.

(** The spec's examples, run through the pass itself. *)
Example no_net_pass_10 :
  pass_no_net_host_mapping (machines_only 10) example_farm
  = Raise (NameError "FPGAInst").
Proof. reflexivity. Qed.

Example no_net_pass_15 :
  pass_no_net_host_mapping (machines_only 15) example_farm
  = Raise (NameError "FPGAInst").
Proof. reflexivity. Qed.

(** ** Simple networked mapping *)

Section simple_networked.
Context (t : FireSimTopology).

Lemma simple_switch_body_mixed (st : list Inst * list Inst) (sw : node_id) :
  mixed_downlinks t sw = true →
  simple_switch_body t st sw
  = Raise (AssertionError "Mixed downlinks currently not supported.").
Proof.
  unfold mixed_downlinks, simple_switch_body. intros H. destruct st.
  apply andb_true_iff in H as [H1 H2].
  apply negb_true_iff in H1, H2. by rewrite H1, H2.
Qed.

Lemma add_simulations_same_host (l : list node_id) :
  ∀ h, same_host h (foldl add_simulation h l)
       ∧ switch_slots (foldl add_simulation h l) = switch_slots h.
Proof.
  induction l as [|x l IH]; intros h; simpl; [done|].
  destruct (IH (add_simulation h x)) as [(?&?&?) ?]. by repeat split.
Qed.

(** One iteration on a switch that is not mixed: it succeeds, keeps the
    host objects, and keeps what the loop guarantees of every host. *)
Lemma simple_switch_body_ok (sn fn : list Inst) (sw : node_id) :
  mixed_downlinks t sw = false →
  sw ∈ get_dfs_order_switches t →
  Forall (switch_host_ok t) sn → Forall (fpga_host_ok t) fn →
  ∃ sn' fn',
    simple_switch_body t (sn, fn) sw = Ok (sn', fn')
    ∧ Forall2 same_host sn sn' ∧ Forall2 same_host fn fn'
    ∧ Forall (switch_host_ok t) sn' ∧ Forall (fpga_host_ok t) fn'.
Proof.
  intros Hmixed Hsw Hsn Hfn. unfold simple_switch_body.
  unfold mixed_downlinks in Hmixed.
  destruct (all_switches t (alldownlinknodes t sw)) eqn:Hsws.
  - eexists _, fn. split; [done|]. split_and!; [| |  |done].
    + apply Forall2_fmap_r, Forall_Forall2_diag, Forall_forall.
      intros h _. simpl. by case_decide.
    + by apply Forall_Forall2_diag, Forall_forall.
    + apply Forall_fmap, Forall_forall. intros h Hh. simpl.
      rewrite Forall_forall in Hsn. destruct (Hsn h Hh) as [Hf Hs].
      case_decide as Hlen; [|done]. split; [done|]. right.
      exists sw. split_and!; [done..|]. simpl.
      apply nil_length_inv in Hlen. by rewrite Hlen.
  - destruct (all_servers t (alldownlinknodes t sw)) eqn:Hsrv; [|done].
    eexists sn, _. split; [done|]. split_and!; [| |done|].
    + by apply Forall_Forall2_diag, Forall_forall.
    + apply Forall2_fmap_r, Forall_Forall2_diag, Forall_forall.
      intros h _. simpl. case_decide; [|done].
      destruct (add_simulations_same_host (alldownlinknodes t sw)
                  (add_switch h sw)) as [(?&?&?) _]. done.
    + apply Forall_fmap, Forall_forall. intros h Hh. simpl.
      rewrite Forall_forall in Hfn. specialize (Hfn h Hh).
      case_decide as Hc; [|done]. destruct Hc as [Hlen Hcap].
      apply nil_length_inv in Hlen. right. exists sw.
      destruct (add_simulations_same_host (alldownlinknodes t sw)
                  (add_switch h sw)) as [(_&_&Hmax) Hsl].
      rewrite foldl_add_simulation_slots, Hsl. simpl in *.
      rewrite Hlen, <- Hmax. split_and!; [done..| |done|done].
      destruct Hfn as [[Hs _]|(sw' & _ & Hns & _ & _ & Hslots & _)].
      * by rewrite Hs.
      * exfalso. rewrite Hlen in Hslots.
        destruct (alldownlinknodes t sw'); [done|discriminate].
Qed.

Lemma simple_loop_mixed (switches : list node_id) :
  ∀ sn fn,
    (∀ sw, sw ∈ switches → sw ∈ get_dfs_order_switches t) →
    Forall (switch_host_ok t) sn → Forall (fpga_host_ok t) fn →
    Exists (λ sw, mixed_downlinks t sw = true) switches →
    for_each (simple_switch_body t) switches (sn, fn)
    = Raise (AssertionError "Mixed downlinks currently not supported.").
Proof.
  induction switches as [|sw switches IH]; intros sn fn Hsub Hsn Hfn Hex.
  - by apply Exists_nil in Hex.
  - cbn [for_each]. destruct (mixed_downlinks t sw) eqn:Hm.
    + by rewrite simple_switch_body_mixed.
    + destruct (simple_switch_body_ok sn fn sw Hm)
        as (sn' & fn' & Hbody & _ & _ & Hsn' & Hfn'); [set_solver|done..|].
      rewrite Hbody. apply IH; [set_solver|done..|].
      apply Exists_cons in Hex as [Hex|Hex]; [congruence|done].
Qed.

Lemma simple_loop_ok (switches : list node_id) :
  ∀ sn fn,
    (∀ sw, sw ∈ switches → sw ∈ get_dfs_order_switches t) →
    Forall (switch_host_ok t) sn → Forall (fpga_host_ok t) fn →
    Forall (λ sw, mixed_downlinks t sw = false) switches →
    ∃ sn' fn',
      for_each (simple_switch_body t) switches (sn, fn) = Ok (sn', fn')
      ∧ Forall2 same_host sn sn' ∧ Forall2 same_host fn fn'
      ∧ Forall (switch_host_ok t) sn' ∧ Forall (fpga_host_ok t) fn'.
Proof.
  induction switches as [|sw switches IH]; intros sn fn Hsub Hsn Hfn Hall.
  - exists sn, fn. simpl. split_and!; try done.
    all: by apply Forall_Forall2_diag, Forall_forall.
  - cbn [for_each]. inversion Hall as [|?? Hm Hrest]; subst.
    destruct (simple_switch_body_ok sn fn sw Hm)
      as (sn1 & fn1 & Hbody & Hs1 & Hf1 & Hsn1 & Hfn1); [set_solver|done..|].
    rewrite Hbody.
    destruct (IH sn1 fn1) as (sn' & fn' & Hrun & Hs2 & Hf2 & Hsn' & Hfn');
      [set_solver|done..|].
    exists sn', fn'. split_and!; [done| | |done|done].
    + eapply Forall2_trans; [|exact Hs1|exact Hs2].
      unfold same_host. intros ??? (?&?&?) (?&?&?). split_and!; congruence.
    + eapply Forall2_trans; [|exact Hf1|exact Hf2].
      unfold same_host. intros ??? (?&?&?) (?&?&?). split_and!; congruence.
Qed.
End simple_networked.

(** The statements of the pass after line 213, run on hosts that hold
    nothing: they fail with the mixed-downlink assertion when some switch
    has mixed switch and machine non-placeholder downlinks.  Otherwise they
    succeed and keep the host objects; in the end a switch-only host holds
    at most one switch, whose non-placeholder downlinks are all switches,
    and an accelerator host is untouched or holds one switch and exactly
    its machine children, within its slots. *)
Lemma simple_networked_loop_invariant
    (t : FireSimTopology) (switch_nodes fpga_nodes : list Inst) :
  Forall empty_host switch_nodes → Forall empty_host fpga_nodes →
  let sorted := sort_by_key get_num_fpga_slots_max fpga_nodes in
  (Exists (λ sw, mixed_downlinks t sw = true) (get_dfs_order_switches t) →
   simple_networked_loop t switch_nodes fpga_nodes
   = Raise (AssertionError "Mixed downlinks currently not supported."))
  ∧ (Forall (λ sw, mixed_downlinks t sw = false) (get_dfs_order_switches t) →
     ∃ sn fn,
       simple_networked_loop t switch_nodes fpga_nodes = Ok (sn, fn)
       ∧ Forall2 same_host switch_nodes sn ∧ Forall2 same_host sorted fn
       ∧ Forall (switch_host_ok t) sn ∧ Forall (fpga_host_ok t) fn).
Proof.
  intros Hsempty Hfempty sorted.
  rewrite Forall_forall in Hsempty. rewrite Forall_forall in Hfempty.
  assert (Forall (switch_host_ok t) switch_nodes) as Hsn.
  { apply Forall_forall. intros h Hh.
    destruct (Hsempty h Hh) as [Hs Hf]. split; [done|by left]. }
  assert (Forall (fpga_host_ok t) sorted) as Hfn.
  { apply Forall_forall. intros h Hh. unfold sorted, sort_by_key in Hh.
    rewrite stable_sort_Permutation in Hh. left. by apply Hfempty. }
  unfold simple_networked_loop. fold sorted. split.
  - intros Hex. by apply simple_loop_mixed.
  - intros Hall. by apply simple_loop_ok.
Qed.

(** A switch with three machine children and one accelerator host of
    capacity 3: run by themselves, the statements after line 213 put the
    switch and the three machines on that host. *)
Example simple_networked_loop_three_children :
  simple_networked_loop one_switch_tree
    (switch_only one_host_farm) (accelerators one_host_farm)
  = Ok ([], [{| get_ip := "10.0.0.1"; is_fpga_node := true;
                get_num_fpga_slots_max := 3;
                switch_slots := [3]; fpga_slots := [0; 1; 2] |}]).
Proof. reflexivity. Qed.

(** A switch with one switch child and one machine child. *)
Example simple_networked_loop_mixed :
  simple_networked_loop mixed_tree
    (switch_only big_host_farm) (accelerators big_host_farm)
  = Raise (AssertionError "Mixed downlinks currently not supported.").
Proof. reflexivity. Qed.

(** One accelerator host of capacity 4 and two leaf switches of two
    machines each: the first leaf switch takes the host, and the second,
    for which the host still has two free slots, is placed on no host at
    all, because the loop considers empty hosts only. *)
Example simple_networked_loop_empty_hosts_only :
  ∃ sn fn,
    simple_networked_loop two_leaves_tree
      (switch_only big_host_farm) (accelerators big_host_farm)
    = Ok (sn, fn)
    ∧ 5 ∈ get_dfs_order_switches two_leaves_tree
    ∧ alldownlinknodes two_leaves_tree 5 = [3; 4]
    ∧ hosts_holding 5 (sn ++ fn) = 0
    ∧ Exists (λ h, is_fpga_node h = true
                   ∧ 2 ≤ get_num_fpga_slots_max h - length (fpga_slots h)) fn.
Proof.
  eexists _, _. split; [reflexivity|].
  split_and!.
  - by vm_compute; repeat constructor.
  - reflexivity.
  - reflexivity.
  - apply Exists_cons_hd. vm_compute. split; [done|lia].
Qed.

(** With two eligible hosts the loop over the hosts does not stop at the
    first: the switch and its machines are placed on both. *)
Example simple_networked_loop_two_hosts :
  ∃ sn fn,
    simple_networked_loop one_switch_tree
      (switch_only twin_host_farm) (accelerators twin_host_farm)
    = Ok (sn, fn)
    ∧ hosts_holding 3 (sn ++ fn) = 2
    ∧ map fpga_slots fn = [[0; 1; 2]; [0; 1; 2]].
Proof. eexists _, _. split; [reflexivity|]. split; reflexivity. Qed.

(** C1.  The simple networked mapping pass assigns no switch to any host:
    on every topology and every inventory it raises [NameError] at
    line 213, where the name [FPGAInst], imported under
    [if TYPE_CHECKING:] only, is evaluated as an argument of [cast]; the
    loop over the switches is not reached, so neither the assignments nor
    the mixed-downlink error happen. *)
Theorem simple_networked_pass_raises_NameError (t : FireSimTopology)
    (run_farm_nodes : list Inst) :
  pass_simple_networked_host_node_mapping t run_farm_nodes
  = Raise (NameError "FPGAInst").
Proof.
  unfold pass_simple_networked_host_node_mapping.
  by rewrite FPGAInst_unbound.
Qed.

(** The spec's examples, run through the pass itself: the switch with
    three machine children and one accelerator host of capacity 3, and the
    switch with one switch child and one machine child. *)
Example simple_networked_pass_three_children :
  pass_simple_networked_host_node_mapping one_switch_tree one_host_farm
  = Raise (NameError "FPGAInst").
Proof. reflexivity. Qed.

Example simple_networked_pass_mixed :
  pass_simple_networked_host_node_mapping mixed_tree big_host_farm
  = Raise (NameError "FPGAInst").
Proof. reflexivity. Qed.

(** ** Single-host mapping *)

Section one_fpga.
Context (t : FireSimTopology).

(** One iteration never changes the machines of any host, and never
    fails with the mixed-downlink assertion: after the comprehension
    inside [all] the iterator has nothing left for the loop over the
    machines or for the test of the [elif]. *)
Lemma one_fpga_body_spec (fpga_nodes : list Inst)
    (downlinknodes : option (iterator node_id)) (sw : node_id) :
  (∀ it, downlinknodes = Some it → it = []) →
  match one_fpga_body t 0 (fpga_nodes, downlinknodes) sw with
  | Ok (fpga_nodes', downlinknodes') =>
      map fpga_slots fpga_nodes' = map fpga_slots fpga_nodes
      ∧ (∀ it, downlinknodes' = Some it → it = [])
  | Raise e => e = IndexError ∨ e = UnboundLocalError "downlinknodes"
  end.
Proof.
  intros Hdrained. unfold one_fpga_body.
  destruct (fpga_nodes !! 0) as [node|] eqn:Hnode;
    unfold list_getitem; rewrite Hnode; simpl; [|by left].
  assert (map fpga_slots (<[0 := add_switch node sw]> fpga_nodes)
          = map fpga_slots fpga_nodes) as Hsame.
  { destruct fpga_nodes as [|h rest]; [done|]. simpl in *. congruence. }
  destruct (all_servers t (downlinks t sw)); simpl.
  - split; [done|]. by intros it [= <-].
  - destruct downlinknodes as [it|]; [|by right].
    rewrite (Hdrained it eq_refl). simpl. split; [done|]. by intros ? [= <-].
Qed.

Lemma one_fpga_loop_spec (switches : list node_id) :
  ∀ fpga_nodes downlinknodes,
    (∀ it, downlinknodes = Some it → it = []) →
    match for_each (one_fpga_body t 0) switches (fpga_nodes, downlinknodes)
    with
    | Ok (fpga_nodes', _) =>
        map fpga_slots fpga_nodes' = map fpga_slots fpga_nodes
    | Raise e => e = IndexError ∨ e = UnboundLocalError "downlinknodes"
    end.
Proof.
  induction switches as [|sw switches IH]; intros fn dn Hdn.
  - done.
  - cbn [for_each].
    generalize (one_fpga_body_spec fn dn sw Hdn).
    destruct (one_fpga_body t 0 (fn, dn) sw) as [[fn1 dn1]|e]; [|by simpl].
    intros [Hslots Hdn1]. generalize (IH fn1 dn1 Hdn1).
    destruct (for_each (one_fpga_body t 0) switches (fn1, dn1))
      as [[fn2 dn2]|e]; simpl; [congruence|done].
Qed.

(** X24.  Whatever the topology and the hosts bound to [fpga_nodes], the
    loop of the single-host mapping (the statements after line 244)
    assigns no machine to any host, and it never raises the mixed-downlink
    assertion: when it returns, every host holds the machines it held
    before, and when it fails it is with [IndexError] (there is no host
    to index) or with [UnboundLocalError] (a switch with a downlink that
    is not a machine comes before the first assignment of
    [downlinknodes]). *)
Theorem one_fpga_loop_never_assigns_machines (fpga_nodes : list Inst) :
  match one_fpga_loop t fpga_nodes with
  | Ok fpga_nodes' => map fpga_slots fpga_nodes' = map fpga_slots fpga_nodes
  | Raise e => e = IndexError ∨ e = UnboundLocalError "downlinknodes"
  end.
Proof.
  unfold one_fpga_loop.
  generalize (one_fpga_loop_spec (get_dfs_order_switches t) fpga_nodes None).
  destruct (for_each _ _ _) as [[fn dn]|e]; simpl; intros H; by apply H.
Qed.
End one_fpga.

(** The loop by itself, on one switch over three machines and one
    accelerator host: the switch is assigned and none of the machines is.
    A root switch with one switch child and one machine child, reached
    after a leaf switch: no failure. *)
Example one_fpga_loop_drops_machines :
  one_fpga_loop one_switch_tree (accelerators one_host_farm)
  = Ok [{| get_ip := "10.0.0.1"; is_fpga_node := true;
           get_num_fpga_slots_max := 3;
           switch_slots := [3]; fpga_slots := [] |}]
  ∧ mixed_downlinks mixed_tree 3 = true
  ∧ one_fpga_loop mixed_tree (accelerators one_host_farm)
    = Ok [{| get_ip := "10.0.0.1"; is_fpga_node := true;
             get_num_fpga_slots_max := 3;
             switch_slots := [1; 3]; fpga_slots := [] |}].
Proof. split_and!; reflexivity. Qed.

(** C2.  The single-host mapping assigns neither a switch nor a machine:
    on every topology and every inventory it raises [NameError] at
    line 244, where the name [FPGAInst], imported under
    [if TYPE_CHECKING:] only, is evaluated as an argument of [cast]; the
    loop over the switches is not reached, and the failure on mixed
    downlinks is not the mixed-downlink assertion either. *)
Theorem one_fpga_node_mapping_raises_NameError (t : FireSimTopology)
    (run_farm_nodes : list Inst) :
  mapping_use_one_fpga_node t run_farm_nodes = Raise (NameError "FPGAInst").
Proof. unfold mapping_use_one_fpga_node. by rewrite FPGAInst_unbound. Qed.

(** One switch over three machines and one accelerator host of capacity 3;
    a root switch with mixed downlinks on the same host. *)
Example one_fpga_node_mapping_three_children :
  mapping_use_one_fpga_node one_switch_tree one_host_farm
  = Raise (NameError "FPGAInst")
  ∧ mapping_use_one_fpga_node mixed_tree one_host_farm
    = Raise (NameError "FPGAInst").
Proof. split; reflexivity. Qed.

(** ** Dispatch *)

Lemma filter_reachable_all (w : world) (hosts : list string) :
  forallb (reachable w) hosts = true →
  filter (λ h, reachable w h = true) hosts = hosts.
Proof.
  induction hosts as [|h hosts IH]; simpl; [done|].
  intros [Hh Hrest]%andb_true_iff.
  rewrite filter_cons_True by done. by rewrite IH.
Qed.

(** Run a sequence of dispatches whose hosts are all reachable, or not all
    reachable, as [H] says. *)
Ltac run_dispatch H :=
  unfold emit, execute, pass_build_required_drivers,
    pass_build_required_switches, mbind, io_bind, mret, io_ret;
  simpl;
  rewrite ?filter_reachable_all by exact H;
  rewrite ?H; simpl; rewrite <- ?app_assoc; simpl.

Section dispatch.
Context (w : world).

Lemma execute_reachable (tk : task) (hosts : list string) (tr : list event) :
  forallb (reachable w) hosts = true →
  execute w tk hosts tr = (tr ++ map (Remote tk) hosts, Ok ()).
Proof.
  intros H. unfold execute. by rewrite filter_reachable_all, H.
Qed.

Lemma execute_unreachable (tk : task) (hosts : list string) (tr : list event) :
  forallb (reachable w) hosts = false →
  execute w tk hosts tr
  = (tr ++ map (Remote tk) (filter (λ h, reachable w h = true) hosts),
     Raise SystemExit).
Proof. intros H. unfold execute. by rewrite H. Qed.

(** X9.  On a fleet with an unreachable host, setup stops at the liveness
    check: after the binding and the local builds, the only remote
    events are liveness checks on the hosts that answer, and the batch
    aborts before any host is set up. *)
Lemma infrasetup_stops_at_liveness (t : FireSimTopology) (run_farm : RunFarm)
    (use_mock : bool) (tr : list event) :
  forallb (reachable w) (all_runfarm_ips run_farm) = false →
  infrasetup_passes w t run_farm use_mock tr
  = (tr ++ [PostLaunchBinding use_mock]
        ++ map BuildDriver (get_dfs_order_servers t)
        ++ map BuildSwitch (get_dfs_order_switches t)
        ++ map (Remote instance_liveness)
             (filter (λ h, reachable w h = true) (all_runfarm_ips run_farm)),
     Raise SystemExit).
Proof.
  intros H. unfold infrasetup_passes. by run_dispatch H.
Qed.

(** X10.  On a fleet that answers, setup binds the instances, builds the
    drivers of the machines and the binaries of the switches locally,
    checks every host for liveness and only then sets up every host. *)
Lemma infrasetup_all_reachable (t : FireSimTopology) (run_farm : RunFarm)
    (use_mock : bool) (tr : list event) :
  forallb (reachable w) (all_runfarm_ips run_farm) = true →
  infrasetup_passes w t run_farm use_mock tr
  = (tr ++ [PostLaunchBinding use_mock]
        ++ map BuildDriver (get_dfs_order_servers t)
        ++ map BuildSwitch (get_dfs_order_switches t)
        ++ map (Remote instance_liveness) (all_runfarm_ips run_farm)
        ++ map (Remote infrasetup_node_wrapper) (all_runfarm_ips run_farm),
     Ok ()).
Proof.
  intros H. unfold infrasetup_passes. by run_dispatch H.
Qed.

(** X11.  On a fleet with an unreachable host, boot stops at the liveness
    check: no switch and no simulation is started on any host. *)
Lemma boot_stops_at_liveness (run_farm : RunFarm)
    (use_mock skip : bool) (tr : list event) :
  forallb (reachable w) (all_runfarm_ips run_farm) = false →
  boot_simulation_passes w run_farm use_mock skip tr
  = (tr ++ (if skip then [] else [PostLaunchBinding use_mock])
        ++ map (Remote instance_liveness)
             (filter (λ h, reachable w h = true) (all_runfarm_ips run_farm)),
     Raise SystemExit).
Proof.
  intros H. unfold boot_simulation_passes. by destruct skip; run_dispatch H.
Qed.

(** X12.  On a fleet that answers, boot checks every host for liveness,
    then starts the switches on every host, then the simulations on every
    host; the instance binding is redone only when
    [skip_instance_binding] is off. *)
Lemma boot_all_reachable (run_farm : RunFarm)
    (use_mock skip : bool) (tr : list event) :
  forallb (reachable w) (all_runfarm_ips run_farm) = true →
  boot_simulation_passes w run_farm use_mock skip tr
  = (tr ++ (if skip then [] else [PostLaunchBinding use_mock])
        ++ map (Remote instance_liveness) (all_runfarm_ips run_farm)
        ++ map (Remote boot_switch_wrapper) (all_runfarm_ips run_farm)
        ++ map (Remote boot_simulation_wrapper) (all_runfarm_ips run_farm),
     Ok ()).
Proof.
  intros H. unfold boot_simulation_passes. by destruct skip; run_dispatch H.
Qed.

(** Kill has no liveness check: with an unreachable host it has already
    killed the switches of the hosts it reached when it aborts. *)
Lemma kill_does_partial_work (run_farm : RunFarm)
    (use_mock disconnect : bool) (tr : list event) :
  forallb (reachable w) (all_runfarm_ips run_farm) = false →
  kill_simulation_passes w run_farm use_mock disconnect tr
  = (tr ++ [PostLaunchBinding use_mock]
        ++ map (Remote kill_switch_wrapper)
             (filter (λ h, reachable w h = true) (all_runfarm_ips run_farm)),
     Raise SystemExit).
Proof.
  intros H. unfold kill_simulation_passes. by run_dispatch H.
Qed.

(** X13.  On a fleet that answers, kill rebinds the instances, kills the
    switches on every host, then the simulations on every host with the
    [disconnect_all_nbds] flag it was given, and then waits for the
    screens of every host. *)
Lemma kill_all_reachable (run_farm : RunFarm)
    (use_mock disconnect : bool) (tr : list event) :
  forallb (reachable w) (all_runfarm_ips run_farm) = true →
  kill_simulation_passes w run_farm use_mock disconnect tr
  = (tr ++ [PostLaunchBinding use_mock]
        ++ map (Remote kill_switch_wrapper) (all_runfarm_ips run_farm)
        ++ map (Remote (kill_simulation_wrapper disconnect))
             (all_runfarm_ips run_farm)
        ++ map (Remote screens) (all_runfarm_ips run_farm),
     Ok ()).
Proof.
  intros H. unfold kill_simulation_passes. by run_dispatch H.
Qed.
End dispatch.

(** C7 fails on the code for the kill dispatch.  With host 10.0.0.2
    down, setup and boot stop after the liveness check of the host that
    answers and do no work on it; kill runs no liveness check and kills the
    switches on 10.0.0.1 before the batch aborts. *)
Theorem kill_passes_skip_liveness_check :
  kill_simulation_passes one_host_down twin_farm false true []
  = ([PostLaunchBinding false; Remote kill_switch_wrapper "10.0.0.1"],
     Raise SystemExit)
  ∧ infrasetup_passes one_host_down three_machines twin_farm false []
    = ([PostLaunchBinding false; BuildDriver 0; BuildDriver 1; BuildDriver 2;
        Remote instance_liveness "10.0.0.1"],
       Raise SystemExit)
  ∧ boot_simulation_passes one_host_down twin_farm false false []
    = ([PostLaunchBinding false; Remote instance_liveness "10.0.0.1"],
       Raise SystemExit).
Proof. split_and!; reflexivity. Qed.

(** ** The aggregated status *)




Lemma foldl_dict_update_untouched (l : list (gmap string bool)) :
  ∀ acc k,
    (∀ m, m ∈ l → m !! k = None) →
    foldl dict_update acc l !! k = acc !! k.
Proof.
  induction l as [|m l IH]; intros acc k H; simpl; [done|].
  rewrite IH by (intros m' Hm'; apply H; by right).
  unfold dict_update. apply lookup_union_r, H. by left.
Qed.








(** ** The polling loop *)

Section polling.
Context (w : world) (run_farm : RunFarm) (use_mock : bool).



(** A status query that does not reach every host aborts the loop. *)
Lemma poll_step_unreachable (teardown_required : bool)
    (reply : instancestates) (rest : list instancestates) (tr : list event) :
  forallb (reachable w) (all_runfarm_ips run_farm) = false →
  polling_loop w run_farm use_mock teardown_required (reply :: rest) tr
  = (tr ++ map (Remote (monitor_jobs_wrapper false))
             (filter (λ h, reachable w h = true) (all_runfarm_ips run_farm)),
     Raise SystemExit).
Proof. intros H. cbn [polling_loop]. by run_dispatch H. Qed.





End polling.

(** ** The example replies *)





(** ** The monitor loop *)



Lemma monitor_loop_unfold (w : world) (t : FireSimTopology) (run_farm : RunFarm)
    (use_mock b : bool) (replies : list instancestates) (tr : list event) :
  teardown_required t = Ok b →
  monitor_loop w t run_farm use_mock replies tr
  = polling_loop w run_farm use_mock b replies tr.
Proof.
  intros H. unfold monitor_loop, lift, mbind, io_bind. by rewrite H.
Qed.









(** Roots that mix a switch and a machine, one simulation of two complete:
    with the switch first the run is torn down, with the machine first it
    goes on polling. *)
Example mixed_roots_first_root_decides :
  result_of (monitor_loop calm_world switch_then_machine twin_farm false
               [two_host_reply true false]) = Ok Exited
  ∧ LogInfo teardown_msg
    ∈ trace_of (monitor_loop calm_world switch_then_machine twin_farm false
                  [two_host_reply true false])
  ∧ monitor_loop calm_world machine_then_switch twin_farm false
      [two_host_reply true false] []
    = ([Remote (monitor_jobs_wrapper false) "10.0.0.1";
        Remote (monitor_jobs_wrapper false) "10.0.0.2"; Sleep 10],
       Ok Polling).
Proof.
  split_and!; [reflexivity| |reflexivity].
  vm_compute. do 2 right. by left.
Qed.

(** ** The post-run hook *)

(** C8, as amended.  When the post-run hook exits with a non-zero status,
    what happens next is Fabric's decision: with [env.warn_only] off, as
    the method leaves it, [local] aborts the run at the hook and the
    closing success message is not logged; the message is logged and the
    method returns only when [env.warn_only] is on around the call. *)
Theorem post_run_hook_failure_aborts
    (w : world) (workload : WorkloadConfig) (hook : string)
    (tr : list event) :
  post_run_hook workload = Some hook →
  local_status w (run_post_run_hook hook) ≠ 0 →
  post_workload w workload tr
  = if env_warn_only w
    then (tr ++ [LogInfo "Running post_run_hook...";
                 Local (run_post_run_hook hook); LogInfo success_msg],
          Ok ())
    else (tr ++ [LogInfo "Running post_run_hook...";
                 Local (run_post_run_hook hook)],
          Raise SystemExit).
Proof.
  intros Hhook Hstatus.
  unfold post_workload, local, emit, mbind, io_bind, mret, io_ret.
  rewrite Hhook. simpl. rewrite decide_False by done.
  destruct (env_warn_only w); simpl; by rewrite <- !app_assoc.
Qed.

Lemma post_run_hook_failure_aborts_witness :
  post_run_hook example_workload = Some "hook.sh"
  ∧ local_status (failing_hook_world false) (run_post_run_hook "hook.sh") ≠ 0
  ∧ post_workload (failing_hook_world false) example_workload []
    = ([LogInfo "Running post_run_hook...";
        Local (run_post_run_hook "hook.sh")],
       Raise SystemExit).
Proof.
  assert (post_run_hook example_workload = Some "hook.sh") as H1
    by reflexivity.
  assert (local_status (failing_hook_world false)
            (run_post_run_hook "hook.sh") ≠ 0) as H2 by (simpl; lia).
  split_and!; [assumption..|].
  exact (post_run_hook_failure_aborts (failing_hook_world false)
           example_workload "hook.sh" [] H1 H2).
Defined.

(** C8 as stated fails.  Lines 602 to 678 on three machines whose jobs
    are all complete at the first status query: the loop is left, the hook
    runs and exits with status 1, and the run ends in [SystemExit] without
    the success message. *)
Lemma post_run_hook_failure_is_fatal :
  local_status (failing_hook_world false) (run_post_run_hook "hook.sh") = 1
  ∧ monitor_and_finish (failing_hook_world false) three_machines twin_farm
      example_workload false [three_job_reply true true true] []
    = ([Remote (monitor_jobs_wrapper false) "10.0.0.1";
        Remote (monitor_jobs_wrapper false) "10.0.0.2";
        LogInfo "Running post_run_hook...";
        Local (run_post_run_hook "hook.sh")],
       Raise SystemExit)
  ∧ LogInfo success_msg
    ∉ trace_of (monitor_and_finish (failing_hook_world false) three_machines
                  twin_farm example_workload false
                  [three_job_reply true true true]).
Proof.
  split; [reflexivity|]. split; [reflexivity|].
  vm_compute. intros H.
  repeat (apply elem_of_cons in H as [H|H]; [discriminate H|]).
  by apply elem_of_nil in H.
Qed.

(** The same run with a hook that succeeds reaches the success message. *)
Example post_run_hook_success :
  result_of (monitor_and_finish calm_world three_machines twin_farm
               example_workload false [three_job_reply true true true])
  = Ok Exited
  ∧ last (trace_of (monitor_and_finish calm_world three_machines twin_farm
                      example_workload false
                      [three_job_reply true true true]))
    = Some (LogInfo success_msg).
Proof. split; reflexivity. Qed.

(** * Further properties of the passes *)

(** ** Address assignment in traversal order *)

Lemma assign_loop_untouched (t : FireSimTopology) (l : list node_id) :
  ∀ s n,
    n ∉ filter (λ x, isinstance_server (class_of t x) = true) l →
    mac_address (foldl (assign_mac_body t) s l) n = mac_address s n.
Proof.
  induction l as [|a l IH]; intros s n Hn; simpl; [done|].
  rewrite filter_cons in Hn. unfold assign_mac_body at 2.
  destruct (isinstance_server (class_of t a)) eqn:Hcls.
  - rewrite decide_True in Hn by done.
    apply not_elem_of_cons in Hn as [Hne Hn].
    rewrite IH by done. simpl. by rewrite fn_lookup_insert_ne.
  - rewrite decide_False in Hn by done. by rewrite IH.
Qed.

Lemma assign_loop_index (t : FireSimTopology) (l : list node_id) :
  ∀ s i n,
    NoDup l →
    filter (λ x, isinstance_server (class_of t x) = true) l !! i = Some n →
    mac_address (foldl (assign_mac_body t) s l) n = Some (next_mac_alloc s + i).
Proof.
  induction l as [|a l IH]; intros s i n Hnd Hi; [done|].
  apply NoDup_cons in Hnd as [Ha Hnd]. simpl.
  rewrite filter_cons in Hi. unfold assign_mac_body at 2.
  destruct (isinstance_server (class_of t a)) eqn:Hcls.
  - rewrite decide_True in Hi by done. destruct i as [|i]; simpl in Hi.
    + inversion Hi; subst. rewrite assign_loop_untouched.
      * simpl. rewrite fn_lookup_insert. f_equal. lia.
      * intros Hin. apply list_elem_of_filter in Hin as [_ Hin]. done.
    + rewrite (IH _ i n) by done. simpl. f_equal. lia.
  - rewrite decide_False in Hi by done. by apply IH.
Qed.

Lemma pass_assign_mac_addresses_index
    (t : FireSimTopology) (s : pipeline) (i : nat) (n : node_id) :
  NoDup (get_dfs_order t) →
  get_dfs_order_servers t !! i = Some n →
  mac_address (pass_assign_mac_addresses t s) n = Some i.
Proof.
  intros Hnd Hi. unfold pass_assign_mac_addresses.
  by rewrite (assign_loop_index t _ _ i n Hnd Hi).
Qed.

(** X1.  On a traversal without repetition, the machine at position [i]
    among the machines of the traversal (placeholders included) holds the
    address [i] after [pass_assign_mac_addresses], whatever addresses were
    there before: addresses follow the DFS order, start at the reset value
    and are pairwise distinct. *)
Theorem mac_addresses_follow_dfs_order
    (t : FireSimTopology) (s0 : pipeline) (i : nat) (n : node_id) :
  NoDup (get_dfs_order t) →
  get_dfs_order_servers t !! i = Some n →
  mac_address (pass_assign_mac_addresses t s0) n = Some i
  ∧ ∀ j m, get_dfs_order_servers t !! j = Some m →
           mac_address (pass_assign_mac_addresses t s0) m
           = mac_address (pass_assign_mac_addresses t s0) n →
           m = n.
Proof.
  intros Hnd Hi.
  split; [by apply pass_assign_mac_addresses_index|].
  intros j m Hj Heq.
  rewrite (pass_assign_mac_addresses_index t s0 j m),
    (pass_assign_mac_addresses_index t s0 i n) in Heq by done.
  inversion Heq; subst. congruence.
Qed.

Lemma mac_addresses_follow_dfs_order_witness :
  NoDup (get_dfs_order example_tree)
  ∧ get_dfs_order_servers example_tree !! 2 = Some 3
  ∧ mac_address (pass_assign_mac_addresses example_tree fresh_pipeline) 3
    = Some 2
  ∧ ∀ j m, get_dfs_order_servers example_tree !! j = Some m →
           mac_address (pass_assign_mac_addresses example_tree fresh_pipeline) m
           = mac_address (pass_assign_mac_addresses example_tree fresh_pipeline) 3 →
           m = 3.
Proof.
  assert (NoDup (get_dfs_order example_tree)) as H1
    by (by apply (bool_decide_unpack _)).
  assert (get_dfs_order_servers example_tree !! 2 = Some 3) as H2
    by reflexivity.
  split_and!; [assumption..| |];
    apply (mac_addresses_follow_dfs_order example_tree fresh_pipeline 2 3 H1 H2).
Defined.

(** X2.  Running [pass_assign_mac_addresses] a second time gives every node
    the address it already had (the allocator is reset at each run), and
    records the pass once more. *)
Theorem mac_assignment_rerun
    (t : FireSimTopology) (s0 : pipeline) (n : node_id) :
  NoDup (get_dfs_order t) →
  mac_address (pass_assign_mac_addresses t (pass_assign_mac_addresses t s0)) n
  = mac_address (pass_assign_mac_addresses t s0) n
  ∧ next_mac_alloc (pass_assign_mac_addresses t (pass_assign_mac_addresses t s0))
    = next_mac_alloc (pass_assign_mac_addresses t s0)
  ∧ passes_used (pass_assign_mac_addresses t (pass_assign_mac_addresses t s0))
    = passes_used s0
      ++ ["pass_assign_mac_addresses"; "pass_assign_mac_addresses"].
Proof.
  intros Hnd. split_and!.
  - destruct (decide (n ∈ get_dfs_order_servers t)) as [Hin|Hnot].
    + apply list_elem_of_lookup in Hin as [i Hi].
      by rewrite !(pass_assign_mac_addresses_index t _ i n).
    + unfold pass_assign_mac_addresses at 1.
      by rewrite assign_loop_untouched.
  - by rewrite !pass_assign_mac_addresses_next.
  - rewrite !pass_assign_mac_addresses_passes. by rewrite <- app_assoc.
Qed.

Lemma mac_assignment_rerun_witness :
  NoDup (get_dfs_order example_tree)
  ∧ mac_address (pass_assign_mac_addresses example_tree
                   (pass_assign_mac_addresses example_tree fresh_pipeline)) 3
    = mac_address (pass_assign_mac_addresses example_tree fresh_pipeline) 3
  ∧ next_mac_alloc (pass_assign_mac_addresses example_tree
                      (pass_assign_mac_addresses example_tree fresh_pipeline))
    = next_mac_alloc (pass_assign_mac_addresses example_tree fresh_pipeline)
  ∧ passes_used (pass_assign_mac_addresses example_tree
                   (pass_assign_mac_addresses example_tree fresh_pipeline))
    = passes_used fresh_pipeline
      ++ ["pass_assign_mac_addresses"; "pass_assign_mac_addresses"].
Proof.
  assert (NoDup (get_dfs_order example_tree)) as H1
    by (by apply (bool_decide_unpack _)).
  split; [assumption|].
  exact (mac_assignment_rerun example_tree fresh_pipeline 3 H1).
Defined.

(** ** Failure of the table pass on a switch without downlinks *)

Lemma downlinkmacs_body_mac (t : FireSimTopology) (s s' : pipeline) (n : node_id) :
  downlinkmacs_body t s n = Ok s' →
  mac_address s' = mac_address s ∧ next_mac_alloc s' = next_mac_alloc s.
Proof.
  unfold downlinkmacs_body.
  destruct (isinstance_server (class_of t n)).
  - unfold get_mac_address. destruct (mac_address s n); [|discriminate].
    simpl. by intros [= <-].
  - destruct (reduce_add _); [|discriminate]. simpl. by intros [= <-].
Qed.

Lemma downlinkmacs_loop_childless (t : FireSimTopology) (order : list node_id) :
  ∀ s,
    (∀ n, n ∈ order → isinstance_server (class_of t n) = true →
          is_Some (mac_address s n)) →
    Exists (childless_switch t) order →
    for_each (downlinkmacs_body t) order s = Raise TypeError.
Proof.
  induction order as [|n order IH]; intros s Hmac Hex.
  - by apply Exists_nil in Hex.
  - cbn [for_each].
    destruct (decide (isinstance_server (class_of t n) = false
                      ∧ downlinks t n = [])) as [[Hcls Hnil]|Hgood].
    + unfold downlinkmacs_body. by rewrite Hcls, Hnil.
    + assert (∃ s', downlinkmacs_body t s n = Ok s') as [s' Hs'].
      { unfold downlinkmacs_body.
        destruct (isinstance_server (class_of t n)) eqn:Hcls.
        - destruct (Hmac n) as [m Hm]; [by left|done|].
          unfold get_mac_address. rewrite Hm. simpl. eauto.
        - destruct (downlinks t n) eqn:Hd; [by destruct Hgood|].
          simpl. eauto. }
      rewrite Hs'. apply IH.
      * intros n' Hn' Hcls'. apply downlinkmacs_body_mac in Hs' as [-> _].
        apply Hmac; [by right|done].
      * apply Exists_cons in Hex as [Hex|Hex]; [done|done].
Qed.

(** X5.  If the traversal contains a switch that has no downlink, the
    table pass run after the address pass stops with [TypeError]: the
    [reduce] over its downlinks has nothing to fold and no initial value. *)
Theorem switch_without_downlinks_raises (t : FireSimTopology) (s0 : pipeline) :
  Exists (childless_switch t) (get_dfs_order t) →
  pass_compute_switching_tables t (pass_assign_mac_addresses t s0)
  = Raise TypeError.
Proof.
  intros Hex. unfold pass_compute_switching_tables.
  rewrite decide_True
    by (rewrite pass_assign_mac_addresses_passes; set_solver).
  rewrite downlinkmacs_loop_childless; [done| |done].
  intros n Hn Hcls.
  destruct (pass_assign_mac_addresses_macs t s0 n Hn Hcls) as (m & Hm & _).
  simpl. by rewrite Hm.
Qed.

Lemma switch_without_downlinks_raises_witness :
  Exists (childless_switch lone_switch) (get_dfs_order lone_switch)
  ∧ pass_compute_switching_tables lone_switch
      (pass_assign_mac_addresses lone_switch fresh_pipeline)
    = Raise TypeError.
Proof.
  assert (Exists (childless_switch lone_switch) (get_dfs_order lone_switch))
    as H by (apply Exists_cons_hd; by split).
  split; [assumption|].
  exact (switch_without_downlinks_raises lone_switch fresh_pipeline H).
Defined.

(** ** What the table pass computes *)

Lemma for_each_cons_Ok {S A : Type} (body : S → A → outcome S)
    (x : A) (l : list A) (s s' : S) :
  for_each body (x :: l) s = Ok s' →
  ∃ s1, body s x = Ok s1 ∧ for_each body l s1 = Ok s'.
Proof. simpl. destruct (body s x) as [s1|e]; [eauto|discriminate]. Qed.

Lemma for_each_app_Ok {S A : Type} (body : S → A → outcome S)
    (l1 l2 : list A) :
  ∀ s s', for_each body (l1 ++ l2) s = Ok s' →
          ∃ s1, for_each body l1 s = Ok s1 ∧ for_each body l2 s1 = Ok s'.
Proof.
  induction l1 as [|x l1 IH]; intros s s' H; simpl in *; [eauto|].
  destruct (body s x) as [s1|e]; [by apply IH|discriminate].
Qed.

Lemma foldl_app_concat {A : Type} (ls : list (list A)) :
  ∀ l, foldl app l ls = l ++ concat ls.
Proof.
  induction ls as [|l' ls IH]; intros l; simpl.
  - by rewrite app_nil_r.
  - by rewrite IH, app_assoc.
Qed.

Section table_values.
Context (t : FireSimTopology).

Lemma downlinkmacs_body_value (s s' : pipeline) (n : node_id) :
  downlinkmacs_body t s n = Ok s' →
  ∃ macs,
    s' = set_downlinkmacs s n macs
    ∧ if isinstance_server (class_of t n)
      then ∃ m, mac_address s n = Some m ∧ macs = [m]
      else macs = concat (map (downlinkmacs s) (downlinks t n)).
Proof.
  unfold downlinkmacs_body.
  destruct (isinstance_server (class_of t n)).
  - unfold get_mac_address. destruct (mac_address s n) as [m|]; [|discriminate].
    simpl. intros [= <-]. eauto.
  - destruct (map _ (downlinks t n)) as [|l ls] eqn:Hmap; [discriminate|].
    simpl. intros [= <-]. eexists. split; [done|].
    by rewrite foldl_app_concat.
Qed.

Lemma downlinkmacs_loop_values (order : list node_id) :
  ∀ seen s s',
    dfs_bottom_up t seen order = true →
    NoDup order → (∀ x, x ∈ order → x ∉ seen) →
    (∀ n d, n ∈ seen → isinstance_server (class_of t n) = false →
            d ∈ downlinks t n → d ∈ seen) →
    (∀ n, n ∈ seen → downlinkmacs_ok t s n) →
    for_each (downlinkmacs_body t) order s = Ok s' →
    ∀ n, n ∈ seen ∨ n ∈ order → downlinkmacs_ok t s' n.
Proof.
  induction order as [|a order IH];
    intros seen s s' Hwf Hnd Hfresh Hclosed Hok Hrun n Hn.
  - simpl in Hrun. inversion Hrun; subst.
    destruct Hn as [Hn|Hn]; [auto|by apply elem_of_nil in Hn].
  - apply for_each_cons_Ok in Hrun as (s1 & Hbody & Hrun).
    apply NoDup_cons in Hnd as [Ha Hnd].
    simpl in Hwf. apply andb_true_iff in Hwf as [Hcheck Hwf].
    assert (a ∉ seen) as Haseen by (apply Hfresh; by left).
    assert (isinstance_server (class_of t a) = false →
            ∀ d, d ∈ downlinks t a → d ∈ seen) as Hkids.
    { intros Hcls d Hd. rewrite Hcls in Hcheck.
      apply andb_true_iff in Hcheck as [_ Hall].
      rewrite forallb_forall in Hall.
      by apply list_elem_of_In, Hall, bool_decide_eq_true in Hd. }
    apply downlinkmacs_body_value in Hbody as (macs & -> & Hmacs).
    apply (IH (a :: seen) (set_downlinkmacs s a macs) s'); try done.
    + intros x Hx Hin. apply elem_of_cons in Hin as [->|Hin]; [done|].
      by apply (Hfresh x); [right|].
    + intros n' d Hn' Hcls Hd. apply elem_of_cons in Hn' as [->|Hn'].
      * right. by apply Hkids.
      * right. by eapply Hclosed.
    + intros n' Hn'. unfold downlinkmacs_ok in *. simpl.
      assert (∀ k, isinstance_server (class_of t k) = false →
                   (∀ d, d ∈ downlinks t k → d ∈ seen) →
                   map (<[a:=macs]> (downlinkmacs s)) (downlinks t k)
                   = map (downlinkmacs s) (downlinks t k)) as Hmap.
      { intros k _ Hk. apply map_ext_in. intros d Hd.
        apply list_elem_of_In, Hk in Hd.
        apply fn_lookup_insert_ne. by intros ->. }
      apply elem_of_cons in Hn' as [->|Hn'].
      * rewrite fn_lookup_insert.
        destruct (isinstance_server (class_of t a)) eqn:Hcls; [done|].
        by rewrite Hmap by auto.
      * assert (a ≠ n') as Hne by (by intros ->).
        rewrite fn_lookup_insert_ne by done. specialize (Hok n' Hn').
        destruct (isinstance_server (class_of t n')) eqn:Hcls; [done|].
        rewrite Hmap; [done..|]. intros d Hd. by eapply Hclosed.
    + destruct Hn as [Hn|Hn]; [left; by right|].
      apply elem_of_cons in Hn as [->|Hn]; [left; by left|by right].
Qed.

Lemma switch_table_loop_keeps (switches : list node_id) :
  ∀ s s',
    for_each (switch_table_body t) switches s = Ok s' →
    mac_address s' = mac_address s ∧ downlinkmacs s' = downlinkmacs s
    ∧ next_mac_alloc s' = next_mac_alloc s
    ∧ passes_used s' = passes_used s
    ∧ ∀ sw, sw ∉ switches → switch_table s' sw = switch_table s sw.
Proof.
  induction switches as [|sw0 switches IH]; intros s s' Hrun.
  - simpl in Hrun. by inversion Hrun.
  - apply for_each_cons_Ok in Hrun as (s1 & Hbody & Hrun).
    unfold switch_table_body in Hbody.
    destruct (build_switch_table t s sw0) as [tab|]; [|discriminate].
    simpl in Hbody. inversion Hbody; subst.
    destruct (IH _ _ Hrun) as (-> & -> & -> & -> & Hother).
    split_and!; [done..|]. intros sw Hsw.
    apply not_elem_of_cons in Hsw as [Hne Hsw].
    rewrite Hother by done. simpl. by rewrite fn_lookup_insert_ne.
Qed.

(** The table a switch ends with is the one built from the final state. *)
Lemma switch_table_loop_built (switches : list node_id) :
  ∀ s s',
    for_each (switch_table_body t) switches s = Ok s' →
    ∀ sw, sw ∈ switches →
          build_switch_table t s' sw = Ok (switch_table s' sw).
Proof.
  induction switches as [|sw0 switches IH]; intros s s' Hrun sw Hsw.
  - by apply elem_of_nil in Hsw.
  - apply for_each_cons_Ok in Hrun as (s1 & Hbody & Hrun).
    destruct (decide (sw ∈ switches)) as [Hin|Hnot]; [by eapply IH|].
    apply elem_of_cons in Hsw as [->|Hsw]; [|done].
    destruct (switch_table_loop_keeps _ _ _ Hrun) as (_ & Hdm & Hnext & _ & Hother).
    rewrite Hother by done.
    unfold switch_table_body in Hbody.
    destruct (build_switch_table t s sw0) as [tab|] eqn:Hb; [|discriminate].
    simpl in Hbody. inversion Hbody; subst. simpl. rewrite fn_lookup_insert.
    rewrite <- Hb. unfold build_switch_table, next_mac_to_allocate.
    rewrite Hdm, Hnext. done.
Qed.
End table_values.

Section table_routes.
Context (t : FireSimTopology).

Lemma fill_port_hit (port_no : nat) (portmacs : list nat) :
  ∀ tab tab' a,
    Forall (λ m, m < length tab) portmacs →
    fill_port port_no tab portmacs = Ok tab' →
    a ∈ portmacs → tab' !! a = Some port_no.
Proof.
  induction portmacs as [|m macs IH]; intros tab tab' a Hall Hrun Ha.
  - by apply elem_of_nil in Ha.
  - inversion Hall as [|?? Hm Hrest]; subst.
    unfold fill_port in Hrun. apply for_each_cons_Ok in Hrun as (tab1 & H1 & Hrun).
    unfold list_setitem in H1. rewrite decide_True in H1 by done.
    inversion H1; subst.
    assert (Forall (λ m0, m0 < length (<[m:=port_no]> tab)) macs) as Hrest'
      by (by rewrite length_insert).
    destruct (decide (a ∈ macs)) as [Hin|Hnot]; [by eapply IH|].
    apply elem_of_cons in Ha as [->|Ha]; [|done].
    destruct (fill_port_spec port_no macs _ Hrest') as (tab2 & Hrun2 & _ & Hother).
    unfold fill_port in Hrun2. rewrite Hrun in Hrun2. inversion Hrun2; subst.
    rewrite Hother by done. by apply list_lookup_insert_eq.
Qed.

Lemma port_loop_other (s : pipeline) (switch : node_id) (ports : list nat) :
  ∀ tab tab',
    (∀ d, d ∈ downlinks t switch →
          Forall (λ m, m < length tab) (downlinkmacs s d)) →
    for_each
      (λ tab port_no,
         d ← list_getitem (downlinks t switch) port_no;
         fill_port port_no tab (downlinkmacs s d)) ports tab = Ok tab' →
    length tab' = length tab
    ∧ ∀ a, (∀ q d, q ∈ ports → downlinks t switch !! q = Some d →
                   a ∉ downlinkmacs s d) →
           tab' !! a = tab !! a.
Proof.
  induction ports as [|p ports IH]; intros tab tab' Hmacs Hrun.
  - simpl in Hrun. by inversion Hrun.
  - apply for_each_cons_Ok in Hrun as (tab1 & H1 & Hrun).
    unfold list_getitem in H1.
    destruct (downlinks t switch !! p) as [d|] eqn:Hd; [|discriminate].
    simpl in H1.
    assert (d ∈ downlinks t switch) as Hin by by eapply list_elem_of_lookup_2.
    destruct (fill_port_spec p (downlinkmacs s d) tab (Hmacs d Hin))
      as (tab2 & Hfill & Hlen1 & Hother1).
    rewrite H1 in Hfill. inversion Hfill; subst.
    destruct (IH tab2 tab') as [Hlen Hother]; [|done|].
    { intros d' Hd'. rewrite Hlen1. by apply Hmacs. }
    split; [congruence|]. intros a Ha.
    rewrite Hother by (intros q d' Hq; apply Ha; by right).
    apply Hother1. eapply Ha; [by left|done].
Qed.

Lemma build_switch_table_hit (s : pipeline) (switch : node_id)
    (tab : list nat) (p : nat) (d : node_id) (a : nat) :
  (∀ d, d ∈ downlinks t switch →
        Forall (λ m, m < next_mac_alloc s) (downlinkmacs s d)) →
  build_switch_table t s switch = Ok tab →
  downlinks t switch !! p = Some d →
  a ∈ downlinkmacs s d →
  (∀ q d', p < q → downlinks t switch !! q = Some d' →
           a ∉ downlinkmacs s d') →
  tab !! a = Some p.
Proof.
  intros Hmacs Hbuild Hp Ha Hlater.
  unfold build_switch_table, next_mac_to_allocate in Hbuild.
  assert (p < length (downlinks t switch)) as Hlt by by eapply lookup_lt_Some.
  replace (seq 0 (length (downlinks t switch)))
    with (seq 0 p ++ p :: seq (S p) (length (downlinks t switch) - S p))
    in Hbuild.
  2:{ replace (length (downlinks t switch))
        with (p + S (length (downlinks t switch) - S p)) at 2 by lia.
      by rewrite seq_app. }
  apply for_each_app_Ok in Hbuild as (tab1 & Hpre & Hrun).
  apply for_each_cons_Ok in Hrun as (tab2 & Hstep & Hpost).
  apply port_loop_other in Hpre as [Hlen1 _].
  2:{ intros d' Hd'. rewrite length_replicate. by apply Hmacs. }
  rewrite length_replicate in Hlen1.
  unfold list_getitem in Hstep. rewrite Hp in Hstep. simpl in Hstep.
  assert (Forall (λ m, m < length tab1) (downlinkmacs s d)) as Hbound.
  { rewrite Hlen1. apply Hmacs. by eapply list_elem_of_lookup_2. }
  pose proof (fill_port_hit _ _ _ _ a Hbound Hstep Ha) as Hhit.
  destruct (fill_port_spec p (downlinkmacs s d) tab1 Hbound)
    as (tab2' & Hfill & Hlen2 & _).
  rewrite Hstep in Hfill. inversion Hfill; subst tab2'.
  apply port_loop_other in Hpost as [_ Hother].
  2:{ intros d' Hd'. rewrite Hlen2, Hlen1. by apply Hmacs. }
  rewrite Hother; [done|]. intros q d' Hq Hd'.
  apply elem_of_seq in Hq. apply (Hlater q d'); [lia|done].
Qed.

(** On a bottom-up traversal the address pass and the two loops of the
    table pass all succeed. *)
Lemma table_pass_runs (s0 : pipeline) :
  dfs_bottom_up t [] (get_dfs_order t) = true →
  ∃ s2 s3,
    for_each (downlinkmacs_body t) (get_dfs_order t)
      (record_pass "pass_compute_switching_tables"
         (pass_assign_mac_addresses t s0)) = Ok s2
    ∧ for_each (switch_table_body t) (get_dfs_order_switches t) s2 = Ok s3
    ∧ pass_compute_switching_tables t (pass_assign_mac_addresses t s0) = Ok s3
    ∧ ∀ sw d, sw ∈ get_dfs_order_switches t → d ∈ downlinks t sw →
              Forall (λ m, m < next_mac_alloc s3) (downlinkmacs s3 d).
Proof.
  intros Hwf.
  set (s1 := record_pass "pass_compute_switching_tables"
               (pass_assign_mac_addresses t s0)).
  destruct (downlinkmacs_loop t (get_dfs_order t) [] s1 Hwf)
    as (s2 & Hrun2 & Hnext2 & Hmacs2).
  { intros n Hn. by apply (pass_assign_mac_addresses_macs t s0). }
  { intros n Hn. by apply elem_of_nil in Hn. }
  assert (∀ sw d, sw ∈ get_dfs_order_switches t → d ∈ downlinks t sw →
                  Forall (λ m, m < next_mac_alloc s2) (downlinkmacs s2 d))
    as Hbound.
  { intros sw d Hsw Hd. rewrite Hnext2. apply Hmacs2.
    apply list_elem_of_filter in Hsw as [Hcls Hsw].
    rewrite isinstance_switch_server in Hcls.
    apply negb_true_iff in Hcls.
    eapply dfs_bottom_up_downlinks; eauto. }
  destruct (switch_table_loop t (get_dfs_order_switches t) s2 Hbound)
    as (s3 & Hrun3 & Hnext3 & Hdm3 & _).
  exists s2, s3. split_and!; [done..| |].
  - unfold pass_compute_switching_tables.
    rewrite decide_True
      by (rewrite pass_assign_mac_addresses_passes; set_solver).
    fold s1. rewrite Hrun2. simpl. done.
  - intros sw d Hsw Hd. rewrite Hnext3, Hdm3. by eapply Hbound.
Qed.
End table_routes.

(** X3.  On a bottom-up traversal without repetition, after the address
    pass and the table pass every machine of the traversal advertises
    exactly its own address, and every switch advertises the addresses of
    its downlinks, concatenated in port order: what a downlink advertises,
    the switch above it advertises too. *)
Theorem downlinkmacs_propagate_upwards (t : FireSimTopology) (s0 : pipeline) :
  NoDup (get_dfs_order t) →
  dfs_bottom_up t [] (get_dfs_order t) = true →
  ∃ s,
    pass_compute_switching_tables t (pass_assign_mac_addresses t s0) = Ok s
    ∧ ∀ n, n ∈ get_dfs_order t →
        downlinkmacs_ok t s n
        ∧ ∀ d a, isinstance_server (class_of t n) = false →
                 d ∈ downlinks t n → a ∈ downlinkmacs s d →
                 a ∈ downlinkmacs s n.
Proof.
  intros Hnd Hwf.
  destruct (table_pass_runs t s0 Hwf) as (s2 & s3 & Hrun2 & Hrun3 & Hpass & _).
  exists s3. split; [done|].
  destruct (switch_table_loop_keeps t _ _ _ Hrun3) as (Hmac & Hdm & _).
  assert (∀ n, n ∈ get_dfs_order t → downlinkmacs_ok t s3 n) as Hok.
  { intros n Hn. unfold downlinkmacs_ok. rewrite Hmac, Hdm.
    eapply (downlinkmacs_loop_values t (get_dfs_order t) []); try done.
    - intros x _ Hx. by apply elem_of_nil in Hx.
    - intros n' d Hn'. by apply elem_of_nil in Hn'.
    - intros n' Hn'. by apply elem_of_nil in Hn'.
    - by right. }
  intros n Hn. split; [by apply Hok|].
  intros d a Hcls Hd Ha. specialize (Hok n Hn).
  unfold downlinkmacs_ok in Hok. rewrite Hcls in Hok. rewrite Hok.
  apply list_elem_of_In, in_concat. exists (downlinkmacs s3 d).
  split; [|by apply list_elem_of_In].
  apply in_map. by apply list_elem_of_In.
Qed.

Lemma downlinkmacs_propagate_upwards_witness :
  NoDup (get_dfs_order example_tree)
  ∧ dfs_bottom_up example_tree [] (get_dfs_order example_tree) = true
  ∧ ∃ s,
      pass_compute_switching_tables example_tree
        (pass_assign_mac_addresses example_tree fresh_pipeline) = Ok s
      ∧ ∀ n, n ∈ get_dfs_order example_tree →
          downlinkmacs_ok example_tree s n
          ∧ ∀ d a, isinstance_server (class_of example_tree n) = false →
                   d ∈ downlinks example_tree n → a ∈ downlinkmacs s d →
                   a ∈ downlinkmacs s n.
Proof.
  assert (NoDup (get_dfs_order example_tree)) as H1
    by (by apply (bool_decide_unpack _)).
  assert (dfs_bottom_up example_tree [] (get_dfs_order example_tree) = true)
    as H2 by reflexivity.
  split_and!; [assumption..|].
  exact (downlinkmacs_propagate_upwards example_tree fresh_pipeline H1 H2).
Defined.

(** X4.  On a bottom-up traversal, after the address pass and the table
    pass, the table of a switch sends every address advertised by the
    downlink at port [p], and by no downlink at a later port, to port [p]. *)
Theorem switch_table_routes_to_downlink_port
    (t : FireSimTopology) (s0 : pipeline) :
  dfs_bottom_up t [] (get_dfs_order t) = true →
  ∃ s,
    pass_compute_switching_tables t (pass_assign_mac_addresses t s0) = Ok s
    ∧ ∀ switch p d a,
        switch ∈ get_dfs_order_switches t →
        downlinks t switch !! p = Some d →
        a ∈ downlinkmacs s d →
        (∀ q d', p < q → downlinks t switch !! q = Some d' →
                 a ∉ downlinkmacs s d') →
        switch_table s switch !! a = Some p.
Proof.
  intros Hwf.
  destruct (table_pass_runs t s0 Hwf)
    as (s2 & s3 & Hrun2 & Hrun3 & Hpass & Hbound).
  exists s3. split; [done|]. intros sw p d a Hsw Hp Ha Hlater.
  eapply (build_switch_table_hit t s3 sw); eauto.
  by eapply switch_table_loop_built.
Qed.

Lemma switch_table_routes_to_downlink_port_witness :
  dfs_bottom_up example_tree [] (get_dfs_order example_tree) = true
  ∧ ∃ s,
      pass_compute_switching_tables example_tree
        (pass_assign_mac_addresses example_tree fresh_pipeline) = Ok s
      ∧ ∀ switch p d a,
          switch ∈ get_dfs_order_switches example_tree →
          downlinks example_tree switch !! p = Some d →
          a ∈ downlinkmacs s d →
          (∀ q d', p < q → downlinks example_tree switch !! q = Some d' →
                   a ∉ downlinkmacs s d') →
          switch_table s switch !! a = Some p.
Proof.
  split; [reflexivity|].
  apply (switch_table_routes_to_downlink_port example_tree fresh_pipeline).
  reflexivity.
Defined.

(** ** Edge cases and invariants of the no-network packing *)

Lemma fill_nodes_no_servers (fpga_nodes : list Inst) :
  fill_nodes [] fpga_nodes 0
  = if decide (total_slots fpga_nodes = 0) then Ok (Next (fpga_nodes, 0))
    else Raise IndexError.
Proof.
  induction fpga_nodes as [|node rest IH]; [done|].
  cbn [fill_nodes]. unfold total_slots in *. cbn [map sum_list_with sum_list].
  destruct (get_num_fpga_slots_max node) as [|k] eqn:Hcap; simpl.
  - rewrite IH. by destruct (decide (sum_list (map get_num_fpga_slots_max rest) = 0)).
  - done.
Qed.

Lemma no_net_packing_loop_no_servers (fpga_nodes : list Inst) :
  no_net_packing_loop [] fpga_nodes
  = if decide (total_slots (largest_first fpga_nodes) = 0)
    then Ok (largest_first fpga_nodes)
    else Raise IndexError.
Proof.
  unfold no_net_packing_loop. rewrite fill_nodes_no_servers.
  by destruct (decide (total_slots (largest_first fpga_nodes) = 0)).
Qed.

(** X6.  The statements of the pass after line 195 (the sort and the
    packing loop), run without any machine: they succeed, leaving the hosts
    as they are, only when the hosts bound to [fpga_nodes] have no slot at
    all; as soon as one of them has a slot the loop indexes [servers[0]]
    and stops with [IndexError]. *)
Theorem no_net_without_machines (fpga_nodes : list Inst) :
  no_net_packing_loop [] fpga_nodes
  = if decide (total_slots (largest_first fpga_nodes) = 0)
    then Ok (largest_first fpga_nodes)
    else Raise IndexError.
Proof. apply no_net_packing_loop_no_servers. Qed.

Lemma pack_same_host (hosts : list Inst) :
  ∀ servers, Forall2 same_host hosts (pack servers hosts).
Proof.
  induction hosts as [|h hosts IH]; intros servers; simpl; constructor.
  - apply add_simulations_same_host.
  - apply IH.
Qed.

Lemma pack_within_capacity (hosts : list Inst) :
  ∀ servers,
    Forall (λ h, fpga_slots h = []) hosts →
    Forall (λ h, length (fpga_slots h) ≤ get_num_fpga_slots_max h)
      (pack servers hosts)
    ∧ map switch_slots (pack servers hosts) = map switch_slots hosts.
Proof.
  induction hosts as [|h hosts IH]; intros servers Hempty; simpl; [done|].
  inversion Hempty as [|?? Hh Hrest]; subst.
  destruct (IH (drop (get_num_fpga_slots_max h) servers) Hrest) as [IH1 IH2].
  destruct (add_simulations_same_host
              (take (get_num_fpga_slots_max h) servers) h)
    as [(_ & _ & Hmax) Hsw].
  split.
  - constructor; [|done].
    rewrite foldl_add_simulation_slots, Hh, <- Hmax. simpl.
    rewrite length_take. lia.
  - by rewrite Hsw, IH2.
Qed.

(** X7.  The statements of the pass after line 195, run on hosts that hold
    no machine yet: whenever they return, they have placed every machine
    exactly once, in DFS order, no host holds more machines than it has
    slots, and the hosts and their switches are otherwise as before:
    machines are never dropped silently. *)
Theorem no_net_returns_complete_assignment
    (servers : list node_id) (fpga_nodes hosts : list Inst) :
  Forall (λ h, fpga_slots h = []) fpga_nodes →
  no_net_packing_loop servers fpga_nodes = Ok hosts →
  concat (map fpga_slots hosts) = servers
  ∧ Forall (λ h, length (fpga_slots h) ≤ get_num_fpga_slots_max h) hosts
  ∧ Forall2 same_host (largest_first fpga_nodes) hosts
  ∧ map switch_slots hosts = map switch_slots (largest_first fpga_nodes).
Proof.
  intros Hempty Hrun.
  assert (Forall (λ h, fpga_slots h = []) (largest_first fpga_nodes))
    as Hsorted.
  { apply Forall_forall. intros h Hh. unfold largest_first in Hh.
    unfold sort_by_key_reverse in Hh. rewrite stable_sort_Permutation in Hh.
    rewrite Forall_forall in Hempty. by apply Hempty. }
  assert (hosts = pack servers (largest_first fpga_nodes)
          ∧ length servers ≤ total_slots (largest_first fpga_nodes))
    as [-> Hfit].
  { destruct servers as [|x servers].
    - rewrite no_net_packing_loop_no_servers in Hrun.
      destruct (decide _); [|discriminate]. inversion Hrun.
      rewrite pack_nil. split; [done|simpl; lia].
    - unfold no_net_packing_loop in Hrun.
      rewrite fill_nodes_spec in Hrun by (simpl; lia).
      simpl in Hrun.
      destruct (decide (S (length servers)
                        ≤ total_slots (largest_first fpga_nodes)))
        as [Hle|Hgt]; simpl in Hrun.
      + inversion Hrun. split; [done|simpl; lia].
      + rewrite decide_False in Hrun by lia. discriminate. }
  destruct (pack_within_capacity (largest_first fpga_nodes) servers Hsorted)
    as [Hcap Hsw].
  split_and!.
  - rewrite pack_concat by done. by apply take_ge.
  - exact Hcap.
  - apply pack_same_host.
  - done.
Qed.

Lemma no_net_returns_complete_assignment_witness :
  Forall (λ h, fpga_slots h = []) example_fpga_nodes
  ∧ no_net_packing_loop (seq 0 10) example_fpga_nodes
    = Ok (pack (seq 0 10) (largest_first example_fpga_nodes))
  ∧ concat (map fpga_slots (pack (seq 0 10) (largest_first example_fpga_nodes)))
    = seq 0 10
  ∧ Forall (λ h, length (fpga_slots h) ≤ get_num_fpga_slots_max h)
      (pack (seq 0 10) (largest_first example_fpga_nodes))
  ∧ Forall2 same_host (largest_first example_fpga_nodes)
      (pack (seq 0 10) (largest_first example_fpga_nodes))
  ∧ map switch_slots (pack (seq 0 10) (largest_first example_fpga_nodes))
    = map switch_slots (largest_first example_fpga_nodes).
Proof.
  assert (Forall (λ h, fpga_slots h = []) example_fpga_nodes) as H1
    by (repeat constructor).
  assert (no_net_packing_loop (seq 0 10) example_fpga_nodes
          = Ok (pack (seq 0 10) (largest_first example_fpga_nodes))) as H2
    by reflexivity.
  split_and!; [assumption..| | | |];
    apply (no_net_returns_complete_assignment (seq 0 10) example_fpga_nodes _ H1 H2).
Defined.

(** ** The single-host mapping places every switch on the first host *)

Lemma one_fpga_body_Ok (t : FireSimTopology) (fn fn' : list Inst)
    (dn dn' : option (list node_id)) (sw : node_id) :
  one_fpga_body t 0 (fn, dn) sw = Ok (fn', dn') →
  ∃ h rest, fn = h :: rest ∧ fn' = add_switch h sw :: rest.
Proof.
  unfold one_fpga_body, list_getitem.
  destruct fn as [|h rest]; [discriminate|]. simpl.
  destruct (all_servers t (downlinks t sw)); simpl.
  - intros [= <- _]. eauto.
  - destruct dn as [it|]; [|discriminate]. simpl.
    destruct (existsb _ it); [discriminate|]. intros [= <- _]. eauto.
Qed.

Lemma one_fpga_loop_Ok (t : FireSimTopology) (switches : list node_id) :
  ∀ fn dn fn' dn',
    for_each (one_fpga_body t 0) switches (fn, dn) = Ok (fn', dn') →
    fn' = match fn with
          | [] => []
          | h :: rest => foldl add_switch h switches :: rest
          end
    ∧ (switches ≠ [] → fn ≠ []).
Proof.
  induction switches as [|sw switches IH]; intros fn dn fn' dn' Hrun.
  - simpl in Hrun. inversion Hrun; subst. split; [by destruct fn'|done].
  - apply for_each_cons_Ok in Hrun as ([fn1 dn1] & Hbody & Hrun).
    apply one_fpga_body_Ok in Hbody as (h & rest & -> & ->).
    apply IH in Hrun as [-> _]. by split.
Qed.

Lemma foldl_add_switch (switches : list node_id) :
  ∀ h, switch_slots (foldl add_switch h switches) = switch_slots h ++ switches
       ∧ fpga_slots (foldl add_switch h switches) = fpga_slots h
       ∧ same_host h (foldl add_switch h switches).
Proof.
  induction switches as [|sw switches IH]; intros h; simpl.
  - by rewrite app_nil_r.
  - destruct (IH (add_switch h sw)) as (-> & -> & (?&?&?)). simpl.
    by rewrite <- app_assoc.
Qed.

(** X8.  The loop of the single-host mapping (the statements after
    line 244), run on the hosts bound to [fpga_nodes]: whenever it returns,
    the first of these hosts (in the given order, not sorted) has received
    every switch of the topology, appended in traversal order, and every
    other host is exactly as it was; with at least one switch and no host
    it stops with [IndexError]. *)
Theorem one_fpga_node_takes_every_switch
    (t : FireSimTopology) (fpga_nodes : list Inst) :
  (∀ hosts,
     one_fpga_loop t fpga_nodes = Ok hosts →
     match fpga_nodes, hosts with
     | [], [] => get_dfs_order_switches t = []
     | h :: rest, h' :: rest' =>
         switch_slots h' = switch_slots h ++ get_dfs_order_switches t
         ∧ fpga_slots h' = fpga_slots h ∧ same_host h h' ∧ rest' = rest
     | _, _ => False
     end)
  ∧ (fpga_nodes = [] →
     get_dfs_order_switches t ≠ [] →
     one_fpga_loop t fpga_nodes = Raise IndexError).
Proof.
  unfold one_fpga_loop. split.
  - intros hosts Hrun.
    destruct (for_each _ _ _) as [[fn dn]|e] eqn:Hloop; [|discriminate].
    simpl in Hrun. inversion Hrun; subst.
    apply one_fpga_loop_Ok in Hloop as [-> Hne].
    destruct fpga_nodes as [|h rest].
    + destruct (get_dfs_order_switches t); [done|]. by destruct Hne.
    + destruct (foldl_add_switch (get_dfs_order_switches t) h) as (?&?&?).
      done.
  - intros -> Hsw.
    destruct (get_dfs_order_switches t) as [|sw sws]; [done|]. done.
Qed.

(** ** Dispatch order on concrete fleets *)

Lemma infrasetup_stops_at_liveness_witness :
  forallb (reachable one_host_down) (all_runfarm_ips twin_farm) = false
  ∧ infrasetup_passes one_host_down three_machines twin_farm false []
    = ([PostLaunchBinding false; BuildDriver 0; BuildDriver 1; BuildDriver 2;
        Remote instance_liveness "10.0.0.1"],
       Raise SystemExit).
Proof.
  assert (forallb (reachable one_host_down) (all_runfarm_ips twin_farm)
          = false) as H by reflexivity.
  split; [assumption|].
  exact (infrasetup_stops_at_liveness one_host_down three_machines twin_farm
           false [] H).
Defined.

Lemma infrasetup_all_reachable_witness :
  forallb (reachable calm_world) (all_runfarm_ips twin_farm) = true
  ∧ infrasetup_passes calm_world example_tree twin_farm false []
    = ([PostLaunchBinding false;
        BuildDriver 0; BuildDriver 1; BuildDriver 3;
        BuildSwitch 2; BuildSwitch 4; BuildSwitch 5;
        Remote instance_liveness "10.0.0.1";
        Remote instance_liveness "10.0.0.2";
        Remote infrasetup_node_wrapper "10.0.0.1";
        Remote infrasetup_node_wrapper "10.0.0.2"],
       Ok ()).
Proof.
  assert (forallb (reachable calm_world) (all_runfarm_ips twin_farm) = true)
    as H by reflexivity.
  split; [assumption|].
  exact (infrasetup_all_reachable calm_world example_tree twin_farm false [] H).
Defined.

Lemma boot_stops_at_liveness_witness :
  forallb (reachable one_host_down) (all_runfarm_ips twin_farm) = false
  ∧ boot_simulation_passes one_host_down twin_farm false true []
    = ([Remote instance_liveness "10.0.0.1"], Raise SystemExit).
Proof.
  assert (forallb (reachable one_host_down) (all_runfarm_ips twin_farm)
          = false) as H by reflexivity.
  split; [assumption|].
  exact (boot_stops_at_liveness one_host_down twin_farm false true [] H).
Defined.

Lemma boot_all_reachable_witness :
  forallb (reachable calm_world) (all_runfarm_ips twin_farm) = true
  ∧ boot_simulation_passes calm_world twin_farm false false []
    = ([PostLaunchBinding false;
        Remote instance_liveness "10.0.0.1";
        Remote instance_liveness "10.0.0.2";
        Remote boot_switch_wrapper "10.0.0.1";
        Remote boot_switch_wrapper "10.0.0.2";
        Remote boot_simulation_wrapper "10.0.0.1";
        Remote boot_simulation_wrapper "10.0.0.2"],
       Ok ()).
Proof.
  assert (forallb (reachable calm_world) (all_runfarm_ips twin_farm) = true)
    as H by reflexivity.
  split; [assumption|].
  exact (boot_all_reachable calm_world twin_farm false false [] H).
Defined.

Lemma kill_all_reachable_witness :
  forallb (reachable calm_world) (all_runfarm_ips twin_farm) = true
  ∧ kill_simulation_passes calm_world twin_farm false true []
    = ([PostLaunchBinding false;
        Remote kill_switch_wrapper "10.0.0.1";
        Remote kill_switch_wrapper "10.0.0.2";
        Remote (kill_simulation_wrapper true) "10.0.0.1";
        Remote (kill_simulation_wrapper true) "10.0.0.2";
        Remote screens "10.0.0.1"; Remote screens "10.0.0.2"],
       Ok ()).
Proof.
  assert (forallb (reachable calm_world) (all_runfarm_ips twin_farm) = true)
    as H by reflexivity.
  split; [assumption|].
  exact (kill_all_reachable calm_world twin_farm false true [] H).
Defined.

(** ** Failures around the monitor loop *)

(** X14.  When a host of the run farm cannot be reached, the monitor loop
    ends at its first status query with [SystemExit], whatever the roots
    are and whatever the hosts would have replied: it neither sleeps nor
    tears anything down. *)
Theorem monitor_aborts_on_unreachable_host
    (w : world) (t : FireSimTopology) (run_farm : RunFarm) (use_mock : bool)
    (reply : instancestates) (rest : list instancestates) (tr : list event) :
  roots t ≠ [] →
  forallb (reachable w) (all_runfarm_ips run_farm) = false →
  monitor_loop w t run_farm use_mock (reply :: rest) tr
  = (tr ++ map (Remote (monitor_jobs_wrapper false))
             (filter (λ h, reachable w h = true) (all_runfarm_ips run_farm)),
     Raise SystemExit).
Proof.
  intros Hroots H.
  destruct (roots t) as [|r others] eqn:Hr; [done|].
  rewrite (monitor_loop_unfold _ _ _ _ (isinstance_switch (class_of t r)))
    by (unfold teardown_required, list_getitem; by rewrite Hr).
  by apply poll_step_unreachable.
Qed.

Lemma monitor_aborts_on_unreachable_host_witness :
  roots example_tree ≠ []
  ∧ forallb (reachable one_host_down) (all_runfarm_ips twin_farm) = false
  ∧ monitor_loop one_host_down example_tree twin_farm false
      (two_host_reply true true :: []) []
    = ([Remote (monitor_jobs_wrapper false) "10.0.0.1"], Raise SystemExit).
Proof.
  assert (roots example_tree ≠ []) as H1 by done.
  assert (forallb (reachable one_host_down) (all_runfarm_ips twin_farm)
          = false) as H2 by reflexivity.
  split_and!; [assumption..|].
  exact (monitor_aborts_on_unreachable_host one_host_down example_tree
           twin_farm false (two_host_reply true true) [] [] H1 H2).
Defined.

(** X15.  The aggregated status keeps one value per simulation name, the
    one of the last host that reports the name: an earlier host's report
    of the same simulation is replaced. *)
Theorem aggregated_status_last_report_wins
    (before after : instancestates) (h : string) (d : instdata)
    (k : string) (b : bool) :
  sims d !! k = Some b →
  (∀ x, x ∈ after → sims x.2 !! k = None) →
  jobs_complete_dict (before ++ (h, d) :: after) !! k = Some b.
Proof.
  intros Hk Hafter. unfold jobs_complete_dict.
  rewrite map_app, foldl_app. simpl.
  rewrite foldl_dict_update_untouched.
  - by apply lookup_union_Some_l.
  - intros m Hm. apply list_elem_of_fmap in Hm as (x & -> & Hx).
    by apply Hafter.
Qed.

Lemma aggregated_status_last_report_wins_witness :
  sims {| switches := ∅; sims := {["job0" := false]} |} !! "job0" = Some false
  ∧ (∀ x : string * instdata, x ∈ [] → sims x.2 !! "job0" = None)
  ∧ jobs_complete_dict (clashing_reply true false) !! "job0" = Some false.
Proof.
  assert (sims {| switches := ∅; sims := {["job0" := false]} |} !! "job0"
          = Some false) as H1 by reflexivity.
  assert (∀ x : string * instdata, x ∈ [] → sims x.2 !! "job0" = None) as H2
    by (intros x Hx; by apply elem_of_nil in Hx).
  split_and!; [assumption..|].
  exact (aggregated_status_last_report_wins
           [("10.0.0.1", {| switches := ∅; sims := {["job0" := true]} |})]
           [] "10.0.0.2" _ "job0" false H1 H2).
Defined.

(** X23.  On a topology without roots the monitor loop (lines 602 to 665)
    stops with [IndexError] at [roots[0]], before its first status query:
    no host is contacted. *)
Theorem monitor_loop_without_roots
    (w : world) (t : FireSimTopology) (run_farm : RunFarm) (use_mock : bool)
    (replies : list instancestates) (tr : list event) :
  roots t = [] →
  monitor_loop w t run_farm use_mock replies tr = (tr, Raise IndexError).
Proof.
  intros Hroots.
  unfold monitor_loop, teardown_required, list_getitem, lift, mbind, io_bind.
  by rewrite Hroots.
Qed.

Lemma monitor_loop_without_roots_witness :
  roots no_roots = []
  ∧ monitor_loop calm_world no_roots twin_farm false
      [two_host_reply true true] []
    = ([], Raise IndexError).
Proof.
  assert (roots no_roots = []) as H by reflexivity.
  split; [assumption|].
  exact (monitor_loop_without_roots calm_world no_roots twin_farm false
           [two_host_reply true true] [] H).
Defined.

(** X16.  [run_workload_passes] does nothing at all: on every topology,
    run farm, workload and world it raises [NameError] at its first
    statement (line 508), where [isinstance] is given the name [AWSEC2F1],
    imported under [if TYPE_CHECKING:] only.  No instance is bound, no
    directory is created and no host is contacted: the trace is left as it
    was. *)
Theorem run_workload_raises_NameError
    (w : world) (t : FireSimTopology) (run_farm : RunFarm)
    (workload : WorkloadConfig) (use_mock : bool)
    (replies : list instancestates) (tr : list event) :
  run_workload_passes w t run_farm workload use_mock replies tr
  = (tr, Raise (NameError "AWSEC2F1")).
Proof.
  unfold run_workload_passes, isinstance_AWSEC2F1.
  by rewrite AWSEC2F1_unbound.
Qed.

(** Three machines whose jobs are all complete at the first status query,
    on a fleet that answers. *)
Example run_workload_three_machines :
  run_workload_passes calm_world three_machines twin_farm example_workload
    false [three_job_reply true true true] []
  = ([], Raise (NameError "AWSEC2F1")).
Proof. reflexivity. Qed.

(** ** Default network parameters *)

Lemma keeps_refl {A : Type} (o : option A) : keeps o o.
Proof. by intros v. Qed.

Lemma keeps_if_none {A : Type} (d : A) (o : option A) : keeps o (if_none d o).
Proof. intros v ->. done. Qed.

Lemma if_none_idem {A : Type} (d : A) (o : option A) :
  if_none d (if_none d o) = if_none d o.
Proof. by destruct o. Qed.

Section default_params.
Context (t : FireSimTopology) (c : default_params).

Lemma apply_defaults_to_idem (n : node_id) (p : node_params) :
  apply_defaults_to t c n (apply_defaults_to t c n p)
  = apply_defaults_to t c n p.
Proof.
  unfold apply_defaults_to.
  destruct (isinstance_switch (class_of t n)),
    (isinstance_server (class_of t n));
    unfold default_switch_params, default_server_params; simpl;
    by rewrite ?if_none_idem.
Qed.

Lemma apply_defaults_to_keeps (n : node_id) (p : node_params) :
  keeps_user_values p (apply_defaults_to t c n p).
Proof.
  unfold apply_defaults_to, keeps_user_values.
  destruct (isinstance_switch (class_of t n)),
    (isinstance_server (class_of t n)); simpl;
    repeat split; (apply keeps_if_none || apply keeps_refl).
Qed.

(** The pass normalises every visited node, once is as good as many
    times, and leaves the other nodes alone. *)
Lemma default_params_loop (l : list node_id) :
  ∀ params n,
    foldl (default_params_body t c) params l n
    = if decide (n ∈ l) then apply_defaults_to t c n (params n)
      else params n.
Proof.
  induction l as [|a l IH]; intros params n; cbn [foldl].
  - destruct (decide (n ∈ [])) as [H|]; [by apply elem_of_nil in H|done].
  - rewrite IH. unfold default_params_body.
    destruct (decide (n = a)) as [->|Hne].
    + rewrite fn_lookup_insert. rewrite (decide_True (P := a ∈ a :: l))
        by (by left).
      destruct (decide (a ∈ l)); [apply apply_defaults_to_idem|done].
    + rewrite fn_lookup_insert_ne by done.
      destruct (decide (n ∈ l)) as [Hin|Hnot].
      * rewrite decide_True; [done|by right].
      * rewrite decide_False; [done|].
        intros [?|?]%elem_of_cons; done.
Qed.
End default_params.

(** X18.  [pass_apply_default_network_params] never overwrites a value the
    user topology supplied: whatever attribute of whatever node was set
    before the pass has the same value after it. *)
Theorem default_params_keep_user_values
    (t : FireSimTopology) (c : default_params)
    (params : node_id → node_params) (n : node_id) :
  keeps_user_values (params n)
    (pass_apply_default_network_params t c params n).
Proof.
  unfold pass_apply_default_network_params. rewrite default_params_loop.
  destruct (decide (n ∈ get_dfs_order t)).
  - apply apply_defaults_to_keeps.
  - unfold keeps_user_values. repeat split; apply keeps_refl.
Qed.

Lemma filled_if_none {A : Type} (d : A) (o : option A) :
  filled d o (if_none d o).
Proof. by destruct o. Qed.

(** X19.  After the pass every attribute of every node of the traversal is
    determined.  On a switch, the link latency, the switching latency and
    the bandwidth hold the user's value, or else [defaultlinklatency],
    [defaultswitchinglatency] and [defaultnetbandwidth] in this order, and
    the machine attributes are as they were.  On a machine (placeholders
    included), each of the fourteen link, profiling, tracing, counter,
    DRAM, assertion and print attributes holds the user's value, or else
    the default of the same name (the link latency [defaultlinklatency],
    the maximal bandwidth [defaultnetbandwidth]), and the switch attributes
    are as they were. *)
Theorem default_params_fill_every_node
    (t : FireSimTopology) (c : default_params)
    (params : node_id → node_params) (n : node_id) :
  n ∈ get_dfs_order t →
  (if isinstance_switch (class_of t n)
   then switch_defaults_applied c (params n)
          (pass_apply_default_network_params t c params n)
   else switch_params_untouched (params n)
          (pass_apply_default_network_params t c params n))
  ∧ (if isinstance_server (class_of t n)
     then server_defaults_applied c (params n)
            (pass_apply_default_network_params t c params n)
     else server_params_untouched (params n)
            (pass_apply_default_network_params t c params n)).
Proof.
  intros Hn. unfold pass_apply_default_network_params.
  rewrite default_params_loop, decide_True by done.
  unfold apply_defaults_to.
  destruct (isinstance_switch (class_of t n)),
    (isinstance_server (class_of t n));
    unfold switch_defaults_applied, server_defaults_applied,
      switch_params_untouched, server_params_untouched; simpl;
    split_and!; (apply filled_if_none || reflexivity).
Qed.

Lemma default_params_fill_every_node_witness :
  3 ∈ get_dfs_order example_tree
  ∧ switch_params_untouched unset_params
      (pass_apply_default_network_params example_tree example_defaults
         (λ _, unset_params) 3)
  ∧ server_defaults_applied example_defaults unset_params
      (pass_apply_default_network_params example_tree example_defaults
         (λ _, unset_params) 3).
Proof.
  assert (3 ∈ get_dfs_order example_tree) as H
    by (by apply (bool_decide_unpack _)).
  split; [assumption|].
  exact (default_params_fill_every_node example_tree example_defaults
           (λ _, unset_params) 3 H).
Defined.

(** The attributes of a machine and of a switch of the example, all unset
    before the pass. *)
Example default_params_on_example_tree :
  pass_apply_default_network_params example_tree example_defaults
    (λ _, unset_params) 3
  = {| switch_link_latency := None;
       switch_switching_latency := None;
       switch_bandwidth := None;
       server_link_latency := Some 6405%Z;
       server_bw_max := Some 200%Z;
       server_profile_interval := Some (-1)%Z;
       trace_enable := Some false;
       trace_select := Some "1";
       trace_start := Some "0";
       trace_end := Some "-1";
       trace_output_format := Some "0";
       autocounter_readrate := Some 0%Z;
       zerooutdram := Some false;
       disable_asserts := Some false;
       print_start := Some "0";
       print_end := Some "-1";
       print_cycle_prefix := Some true |}
  ∧ pass_apply_default_network_params example_tree example_defaults
      (λ _, unset_params) 5
    = {| switch_link_latency := Some 6405%Z;
         switch_switching_latency := Some 10%Z;
         switch_bandwidth := Some 200%Z;
         server_link_latency := None;
         server_bw_max := None;
         server_profile_interval := None;
         trace_enable := None;
         trace_select := None;
         trace_start := None;
         trace_end := None;
         trace_output_format := None;
         autocounter_readrate := None;
         zerooutdram := None;
         disable_asserts := None;
         print_start := None;
         print_end := None;
         print_cycle_prefix := None |}.
Proof. split; reflexivity. Qed.

(** X20.  The pass is idempotent, also on a traversal that visits a node
    more than once: a second run changes no attribute of any node; and a
    node outside the traversal is never touched. *)
Theorem default_params_idempotent
    (t : FireSimTopology) (c : default_params)
    (params : node_id → node_params) (n : node_id) :
  pass_apply_default_network_params t c
    (pass_apply_default_network_params t c params) n
  = pass_apply_default_network_params t c params n
  ∧ (n ∉ get_dfs_order t →
     pass_apply_default_network_params t c params n = params n).
Proof.
  unfold pass_apply_default_network_params. rewrite !default_params_loop.
  destruct (decide (n ∈ get_dfs_order t)).
  - split; [apply apply_defaults_to_idem|done].
  - done.
Qed.

(** ** The choice of the mapping strategy *)

(** X21.  [pass_perform_host_node_mapping] chooses no strategy: whatever
    the topology, the run farm and the custom mapper, it raises
    [NameError] in its first statement (line 268), where [isinstance] is
    given the name [AWSEC2F1], imported under [if TYPE_CHECKING:] only.
    In particular a run farm of another class does not fail the assertion:
    the test is never made. *)
Theorem host_node_mapping_raises_NameError
    (t : FireSimTopology) (run_farm : RunFarm) (mapper : custom_mapper)
    (getattr_self : string → list Inst → outcome (list Inst)) :
  pass_perform_host_node_mapping t run_farm mapper getattr_self
  = Raise (NameError "AWSEC2F1").
Proof.
  unfold pass_perform_host_node_mapping, isinstance_AWSEC2F1.
  by rewrite AWSEC2F1_unbound.
Qed.

(** A machine and a switch as roots, without a custom mapper. *)
Example host_node_mapping_mixed_roots :
  pass_perform_host_node_mapping machine_then_switch twin_farm mapper_None
    (λ _ hosts, Ok hosts)
  = Raise (NameError "AWSEC2F1").
Proof. reflexivity. Qed.
